(** * Task manager with time analytics: the analytics and recurrence engine

    A shallow embedding of [FSD_project.py]: the two SQLite tables
    ([tasks], [work_sessions]), the Pomodoro fields of the Streamlit session
    state, the functions that read and write them ([predict_time],
    [recur_create], [complete], [pom_start], [pom_stop], [daily_scores],
    [weekly_score], [best_hours] and the submission of the [new_task] form),
    and what the pages compute from them: the buttons offered for a pending
    task, the metrics of the dashboard and the countdown of the Pomodoro tab.

    Modelling conventions.
    - SQL [REAL] values and Python floats are held as rationals ([Q]); a
      rational stands for the double nearest to it.  The arithmetic that
      leads to a stored duration or to a value rounded to one decimal is
      done on doubles as IEEE 754 prescribes ([Flt]): each value is read as
      the nearest double, every operation rounds to nearest with ties to
      even, the rows of a group are added as pandas adds them and the
      values of a column as NumPy does.  A value rounded to one decimal is
      written as that decimal.  The minutes shown per day and the countdown
      of the Pomodoro tab are taken exactly.
    - Text is held as its UTF-8 encoding, one [ascii] per byte; white space
      is what [str.isspace] accepts, in all of Unicode.  Enumerations that
      the program stores as text ([status], [priority], [recurrence]) stay
      text.
    - [tasks] is a finite map from row id to row; [work_sessions], which is
      only ever appended to, is the list of its rows in insertion order.
      Each comes with its [sqlite_sequence] counter.
    - [datetime.now()] is an oracle: the k-th reading of the clock during a
      run is [clock k]; the world counts the readings taken so far.
    - The library parsers [datetime.fromisoformat] and [pandas.to_datetime]
      are parameters of the development; [Iso.parse] is the instance used to
      run the model.  Datetimes are naive (no UTC offset), as is every
      timestamp the program itself writes.
    - A Python exception ends the call and leaves the writes made so far
      in place (every write is committed as soon as it is made). *)

From Stdlib Require Import ZArith QArith Qround Qminmax Qabs Lia Lqa Ascii String.
From stdpp Require Import gmap strings list sorting pretty.

Local Open Scope string_scope.
Local Open Scope Z_scope.

(* ===================================================================== *)
(** ** Text *)
(* ===================================================================== *)

Module Text.

(** Python's [str.isspace] on one character of a text held as UTF-8, by
    the number of bytes of the character.  One byte: U+0009 to U+000D and
    U+001C to U+0020. *)
Definition isspace1 (a : ascii) : bool :=
  let n := nat_of_ascii a in
  ((9 <=? n)%nat && (n <=? 13)%nat) || ((28 <=? n)%nat && (n <=? 32)%nat).

(** Two bytes: U+0085 and U+00A0. *)
Definition isspace2 (a b : ascii) : bool :=
  (nat_of_ascii a =? 194)%nat
  && ((nat_of_ascii b =? 133)%nat || (nat_of_ascii b =? 160)%nat).

(** Three bytes: U+1680, U+2000 to U+200A, U+2028, U+2029, U+202F, U+205F
    and U+3000. *)
Definition isspace3 (a b c : ascii) : bool :=
  let x := nat_of_ascii a in
  let y := nat_of_ascii b in
  let z := nat_of_ascii c in
  ((x =? 225) && (y =? 154) && (z =? 128))%nat
  || ((x =? 226) && (y =? 128)
      && (((128 <=? z) && (z <=? 138)) || (z =? 168) || (z =? 169) || (z =? 175)))%nat
  || ((x =? 226) && (y =? 129) && (z =? 159))%nat
  || ((x =? 227) && (y =? 128) && (z =? 128))%nat.

(** [str.lstrip()] *)
Fixpoint lstrip (s : string) : string :=
  match s with
  | String a r1 =>
      if isspace1 a then lstrip r1
      else match r1 with
           | String b r2 =>
               if isspace2 a b then lstrip r2
               else match r2 with
                    | String c r3 => if isspace3 a b c then lstrip r3 else s
                    | EmptyString => s
                    end
           | EmptyString => s
           end
  | EmptyString => EmptyString
  end.

(** Every character of [s] is white space (the empty string included). *)
Fixpoint blank (s : string) : bool :=
  match s with
  | String a r1 =>
      if isspace1 a then blank r1
      else match r1 with
           | String b r2 =>
               if isspace2 a b then blank r2
               else match r2 with
                    | String c r3 => if isspace3 a b c then blank r3 else false
                    | EmptyString => false
                    end
           | EmptyString => false
           end
  | EmptyString => true
  end.

(** [str.rstrip()]: the text is cut where only white space follows. *)
Fixpoint rstrip (s : string) : string :=
  match s with
  | String a r => if blank s then EmptyString else String a (rstrip r)
  | EmptyString => EmptyString
  end.

(** [str.strip()] *)
Definition strip (s : string) : string := rstrip (lstrip s).

(** Truthiness of a Python [str]. *)
Definition truthy (s : string) : bool :=
  match s with EmptyString => false | _ => true end.

(** The text after the white-space character at the head of [s]. *)
Definition skip_space (s : string) : option string :=
  match s with
  | String a r1 =>
      if isspace1 a then Some r1
      else match r1 with
           | String b r2 =>
               if isspace2 a b then Some r2
               else match r2 with
                    | String c r3 => if isspace3 a b c then Some r3 else None
                    | EmptyString => None
                    end
           | EmptyString => None
           end
  | EmptyString => None
  end.

End Text.

(* ===================================================================== *)
(** ** Calendar dates, times of day and naive datetimes *)
(* ===================================================================== *)

Module Cal.

Record date := mkDate { year : Z; month : Z; day : Z }.
Record time := mkTime { hour : Z; minute : Z; second : Z; microsecond : Z }.
(** [datetime.combine(d, t)] *)
Record datetime := combine { dt_date : date; dt_time : time }.

Definition MINYEAR : Z := 1.
Definition MAXYEAR : Z := 9999.

Definition is_leap (y : Z) : bool :=
  (y mod 4 =? 0) && (negb (y mod 100 =? 0) || (y mod 400 =? 0)).

Definition days_in_month (y m : Z) : Z :=
  match m with
  | 1 => 31 | 2 => if is_leap y then 29 else 28 | 3 => 31 | 4 => 30
  | 5 => 31 | 6 => 30 | 7 => 31 | 8 => 31 | 9 => 30 | 10 => 31
  | 11 => 30 | 12 => 31
  | _ => 0
  end.

(** Number of days in the year before the first day of month [m]. *)
Definition days_before_month (y m : Z) : Z :=
  match m with
  | 1 => 0 | 2 => 31
  | 3 => 59 | 4 => 90 | 5 => 120 | 6 => 151 | 7 => 181 | 8 => 212
  | 9 => 243 | 10 => 273 | 11 => 304 | 12 => 334
  | _ => 0
  end + (if (2 <? m) && is_leap y then 1 else 0).

(** Number of days before January 1st of year [y]. *)
Definition days_before_year (y : Z) : Z :=
  let p := y - 1 in p * 365 + p / 4 - p / 100 + p / 400.

(** Proleptic Gregorian ordinal; 0001-01-01 is day 1. *)
Definition toordinal (d : date) : Z :=
  days_before_year (year d) + days_before_month (year d) (month d) + day d.

Definition date_ok (d : date) : bool :=
  (MINYEAR <=? year d) && (year d <=? MAXYEAR)
  && (1 <=? month d) && (month d <=? 12)
  && (1 <=? day d) && (day d <=? days_in_month (year d) (month d)).

Definition time_ok (t : time) : bool :=
  (0 <=? hour t) && (hour t <? 24) && (0 <=? minute t) && (minute t <? 60)
  && (0 <=? second t) && (second t <? 60)
  && (0 <=? microsecond t) && (microsecond t <? 1000000).

Definition datetime_ok (d : datetime) : bool :=
  date_ok (dt_date d) && time_ok (dt_time d).

(** Dates compare as the tuples (year, month, day). *)
Definition date_leb (a b : date) : bool :=
  (year a <? year b)
  || ((year a =? year b)
      && ((month a <? month b) || ((month a =? month b) && (day a <=? day b)))).

(** The calendar day after [d]; [None] past 9999-12-31, where Python raises
    [OverflowError]. *)
Definition next_day (d : date) : option date :=
  if day d <? days_in_month (year d) (month d)
  then Some (mkDate (year d) (month d) (day d + 1))
  else if month d <? 12
  then Some (mkDate (year d) (month d + 1) 1)
  else if year d <? MAXYEAR
  then Some (mkDate (year d + 1) 1 1)
  else None.

Fixpoint date_add_days (d : date) (n : nat) : option date :=
  match n with
  | O => Some d
  | S n' => match next_day d with
            | Some d' => date_add_days d' n'
            | None => None
            end
  end.

(** [d + timedelta(days=n)] for [n >= 0]: the date moves, the time of day
    stays. *)
Definition add_days (d : datetime) (n : nat) : option datetime :=
  match date_add_days (dt_date d) n with
  | Some d' => Some (combine d' (dt_time d))
  | None => None
  end.

(** Microseconds from the start of day 0 to [d]. *)
Definition to_micro (d : datetime) : Z :=
  let t := dt_time d in
  (((toordinal (dt_date d) * 24 + hour t) * 60 + minute t) * 60 + second t)
  * 1000000 + microsecond t.

(** [(e - s).total_seconds()] *)
Definition total_seconds (e s : datetime) : Q :=
  (to_micro e - to_micro s) # 1000000.

(** The reading with its microseconds dropped ([timespec="seconds"]). *)
Definition trunc_seconds (d : datetime) : datetime :=
  let t := dt_time d in
  combine (dt_date d) (mkTime (hour t) (minute t) (second t) 0).



End Cal.

(* ===================================================================== *)
(** ** ISO 8601 text *)
(* ===================================================================== *)

Module Iso.
Import Cal.

Definition digit (n : Z) : ascii := ascii_of_nat (48 + Z.to_nat n).

Definition pad2 (n : Z) (k : string) : string :=
  String (digit (n / 10)) (String (digit (n mod 10)) k).

Definition pad4 (n : Z) (k : string) : string :=
  String (digit (n / 1000)) (String (digit (n / 100 mod 10)) (pad2 (n mod 100) k)).

Definition pad6 (n : Z) (k : string) : string :=
  pad2 (n / 10000) (pad4 (n mod 10000) k).

Definition date_text (d : date) (k : string) : string :=
  pad4 (year d) (String "-" (pad2 (month d) (String "-" (pad2 (day d) k)))).

Definition clock_text (t : time) (k : string) : string :=
  pad2 (hour t) (String ":" (pad2 (minute t) (String ":" (pad2 (second t) k)))).

(** [d.isoformat(timespec="seconds")]: YYYY-MM-DDTHH:MM:SS *)
Definition isoformat_seconds (d : datetime) : string :=
  date_text (dt_date d) (String "T" (clock_text (dt_time d) "")).

(** [d.isoformat()]: the microseconds are printed when they are not zero. *)
Definition isoformat (d : datetime) : string :=
  date_text (dt_date d)
    (String "T"
       (clock_text (dt_time d)
          (if microsecond (dt_time d) =? 0 then ""
           else String "." (pad6 (microsecond (dt_time d)) "")))).

Definition digit_val (c : ascii) : option Z :=
  let n := Z.of_nat (nat_of_ascii c) - 48 in
  if (0 <=? n) && (n <=? 9) then Some n else None.

Definition num2 (a b : ascii) : option Z :=
  x ← digit_val a; y ← digit_val b; Some (x * 10 + y).

Definition num4 (a b c d : ascii) : option Z :=
  x ← num2 a b; y ← num2 c d; Some (x * 100 + y).

(** A parser for the second-precision text [YYYY-MM-DDTHH:MM:SS]: the
    instance of the library parsers used to run the model. *)
Definition parse (s : string) : option datetime :=
  match list_ascii_of_string s with
  | [y1; y2; y3; y4; s1; m1; m2; s2; d1; d2; sT; h1; h2; s3; i1; i2; s4; c1; c2] =>
      if (s1 =? "-")%char && (s2 =? "-")%char && (sT =? "T")%char
         && (s3 =? ":")%char && (s4 =? ":")%char
      then
        y ← num4 y1 y2 y3 y4; m ← num2 m1 m2; d ← num2 d1 d2;
        h ← num2 h1 h2; i ← num2 i1 i2; c ← num2 c1 c2;
        let r := combine (mkDate y m d) (mkTime h i c 0) in
        if datetime_ok r then Some r else None
      else None
  | _ => None
  end.

End Iso.

(* ===================================================================== *)
(** ** Numbers *)
(* ===================================================================== *)

Module Num.
Local Open Scope Q_scope.

(** The integer nearest to [q]; a tie goes to the even neighbour. *)
Definition round_half_even (q : Q) : Z :=
  let f := Qfloor q in
  match ((q - inject_Z f) ?= (1 # 2))%Q with
  | Lt => f
  | Gt => (f + 1)%Z
  | Eq => if Z.even f then f else (f + 1)%Z
  end.

(** The exact sum of a column. *)
Definition sum (l : list Q) : Q := foldr Qplus 0 l.

(** [max(a, b)] of Python: the first argument unless the second is larger. *)
Definition py_max (a b : Q) : Q := if Qle_bool b a then a else b.


End Num.

(* ===================================================================== *)
(** ** Doubles *)
(* ===================================================================== *)

(** IEEE 754 binary64 arithmetic on the rationals: 53 significant bits,
    rounding to nearest with ties to even, subnormal numbers from 2^-1074.
    Infinities and NaN are outside the model: no number the engine stores
    comes near the largest double. *)
Module Flt.
Local Open Scope Q_scope.

(** [2 ** e] *)
Definition pow2 (e : Z) : Q :=
  match e with
  | Zneg p => 1 # (2 ^ p)%positive
  | _ => inject_Z (2 ^ e)
  end.

(** The exponent of the last binary place of the double nearest to [x]:
    52 below the exponent of [x], and not below that of the subnormal
    doubles. *)
Definition ulp_exp (x : Q) : Z :=
  let l := (Z.log2 (Z.abs (Qnum x)) - Z.log2 (Zpos (Qden x)))%Z in
  let e := if Qle_bool (pow2 l) (Qabs x) then l else (l - 1)%Z in
  Z.max (e - 52) (-1074).

(** [float(x)]: the double nearest to [x], a tie going to the even
    significand. *)
Definition rnd (x : Q) : Q :=
  Qred (inject_Z (Num.round_half_even (x / pow2 (ulp_exp x))) * pow2 (ulp_exp x)).


(** [a + b], [a - b], [a * b] and [a / b] on doubles. *)
Definition add (a b : Q) : Q := rnd (a + b).
Definition sub (a b : Q) : Q := rnd (a - b).
Definition div (a b : Q) : Q := rnd (a / b).

(** *** Grouped sums

    [groupby(...)[col].sum()] and [.mean()] run pandas's [group_sum] and
    [group_mean], which add the rows of a group with Kahan's compensation:
    for each value
      [y = val - compensation; t = sumx + y;]
      [compensation = t - sumx - y; sumx = t]
    and the result is [sumx], for the mean divided by the number of rows. *)
Definition kahan_step (st : Q * Q) (val : Q) : Q * Q :=
  let y := sub val st.2 in
  let t := add st.1 y in
  (t, sub (sub t st.1) y).

Definition group_sum (l : list Q) : Q := (foldl kahan_step (0, 0) (rnd <$> l)).1.

Definition group_mean (l : list Q) : Q :=
  div (group_sum l) (inject_Z (Z.of_nat (length l))).

(** *** Sums of a column

    [Series.mean()] divides NumPy's sum of the column by its length (the
    optional bottleneck package is not in use).  NumPy adds a column
    pairwise: fewer than 8 values one after the
    other; up to 128 values in eight running sums, one for each position
    modulo 8, which are then added in pairs, the values after the last full
    group of eight following one after the other; a longer column is cut in
    two near the middle, at a multiple of 8, and the two sums are added. *)
Fixpoint lanes (fuel : nat) (r l : list Q) : list Q * list Q :=
  match fuel with
  | O => (r, l)
  | S fuel =>
      if decide (8 ≤ length l)%nat
      then lanes fuel (zip_with add r (take 8 l)) (drop 8 l)
      else (r, l)
  end.

Definition lanes_total (r : list Q) : Q :=
  match r with
  | [r0; r1; r2; r3; r4; r5; r6; r7] =>
      add (add (add r0 r1) (add r2 r3)) (add (add r4 r5) (add r6 r7))
  | _ => 0
  end.

Definition block_sum (l : list Q) : Q :=
  if decide (length l < 8)%nat then foldl add 0 l
  else let p := lanes (length l) (take 8 l) (drop 8 l) in
       foldl add (lanes_total p.1) p.2.

(** [fuel] bounds the number of halvings; the length of the column is
    enough (lemma [pairwise_sum_fuel]). *)
Fixpoint pairwise_sum (fuel : nat) (l : list Q) : Q :=
  match fuel with
  | O => block_sum l
  | S fuel =>
      if decide (length l ≤ 128)%nat then block_sum l
      else let n2 := (length l / 2)%nat in
           let n2 := (n2 - n2 mod 8)%nat in
           add (pairwise_sum fuel (take n2 l)) (pairwise_sum fuel (drop n2 l))
  end.

Definition series_sum (l : list Q) : Q := pairwise_sum (length l) (rnd <$> l).

Definition series_mean (l : list Q) : Q :=
  div (series_sum l) (inject_Z (Z.of_nat (length l))).

(** [round(x, 1)] on a Python float: the decimal with one place nearest to
    the exact value of the double, a tie going to the even digit. *)
Definition py_round1 (x : Q) : Q := Qred (Num.round_half_even (rnd x * 10) # 10).


End Flt.

(* ===================================================================== *)
(** ** The record store and the session state *)
(* ===================================================================== *)

(** A row of [tasks]; the [id] column is the key of the table. *)
Record task := mkTask {
  title : string;
  description : string;
  category : string;
  priority : string;
  status : string;
  created_at : string;
  due_at : option string;
  completed_at : option string;
  predicted_minutes : Q;
  recurrence : string
}.

(** A row of [work_sessions]. *)
Record work_session := mkSession {
  ws_id : Z;
  task_id : Z;
  start_time : string;
  end_time : string;
  duration_minutes : Q
}.

Record World := mkWorld {
  tasks : gmap Z task;
  tasks_seq : Z;                  (* sqlite_sequence entry of tasks *)
  work_sessions : list work_session;   (* in rowid order *)
  work_sessions_seq : Z;          (* sqlite_sequence entry of work_sessions *)
  pom_task : option Z;            (* st.session_state.pom_task *)
  pom_start_at : option string;   (* st.session_state.pom_start *)
  ticks : nat                     (* clock readings taken so far *)
}.

(** The database as the [CREATE TABLE IF NOT EXISTS] statements leave a new
    file, and the session state as the three [if ... not in] lines leave it. *)
Definition initial_world : World :=
  mkWorld ∅ 0 [] 0 None None 0.

(** A row of [get_sessions()]: the session with the title and category of
    its task, which are NULL when the LEFT JOIN finds no task. *)
Record session_row := mkRow {
  sr_session : work_session;
  sr_title : option string;
  sr_category : option string
}.


(** What the [new_task] form holds when it is submitted. *)
Record new_task_form := mkForm {
  f_title : string;
  f_cat : string;
  f_priority : string;
  f_d : Cal.date;
  f_t : Cal.time;
  f_rec : string;
  f_desc : string
}.

(** The exceptions the engine can raise. *)
Inductive exn := IndexError | ValueError | OverflowError.

Inductive outcome (A : Type) :=
| Returned (a : A) (w : World)
| Raised (e : exn) (w : World).
Arguments Returned {A} a w.
Arguments Raised {A} e w.

(** The world a call leaves behind, however it ends. *)
Definition world_after {A} (o : outcome A) : World :=
  match o with Returned _ w => w | Raised _ w => w end.

(** Computations over the world that may raise. *)
Definition M (A : Type) : Type := World → outcome A.

Definition ret {A} (a : A) : M A := λ w, Returned a w.
Definition raise {A} (e : exn) : M A := λ w, Raised e w.
Definition bind {A B} (m : M A) (k : A → M B) : M B :=
  λ w, match m w with
       | Returned a w' => k a w'
       | Raised e w' => Raised e w'
       end.
Definition gets {A} (f : World → A) : M A := λ w, Returned (f w) w.
Definition modify (f : World → World) : M unit := λ w, Returned tt (f w).

Notation "'let!' x ':=' m 'in' k" := (bind m (λ x, k))
  (at level 10, x name, m at level 200, k at level 200).
Notation "m ';;' k" := (bind m (λ _, k))
  (at level 100, right associativity).

#[global] Instance date_eq_dec : EqDecision Cal.date.
Proof. solve_decision. Defined.

(** Orders used by the sorted group keys: text by code unit, dates as
    tuples. *)
Definition str_le : relation string := λ a b, String.leb a b.
Definition date_le : relation Cal.date := λ a b, Cal.date_leb a b.
Definition date_ge : relation Cal.date := λ a b, Cal.date_leb b a.

#[global] Instance str_le_dec : RelDecision str_le.
Proof. intros a b. unfold str_le. apply _. Defined.
#[global] Instance date_le_dec : RelDecision date_le.
Proof. intros a b. unfold date_le. apply _. Defined.
#[global] Instance date_ge_dec : RelDecision date_ge.
Proof. intros a b. unfold date_ge. apply _. Defined.

(** [df.groupby(key)]: one group per distinct non-NULL key, keys in
    ascending order, each group holding its rows in frame order. *)
Definition groupby {K R} `{EqDecision K} (le : relation K) `{!RelDecision le}
    (key : R → option K) (rows : list R) : list (K * list R) :=
  (λ k, (k, filter (λ r, key r = Some k) rows))
    <$> merge_sort le (remove_dups (omap key rows)).

(** [cat in avg] and [avg[cat]] on a dict held in insertion order. *)
Fixpoint dict_get {V} (k : string) (d : list (string * V)) : option V :=
  match d with
  | [] => None
  | (k', v) :: d' => if decide (k = k') then Some v else dict_get k d'
  end.

(** Largest row id of a table, 0 when it is empty. *)
Definition max_rowid {V} (t : gmap Z V) : Z :=
  foldr Z.max 0 (elements (dom t)).

Definition max_session_id (l : list work_session) : Z :=
  foldr Z.max 0 (ws_id <$> l).

(* ===================================================================== *)
(** ** Sample data *)
(* ===================================================================== *)

Module Sample.
Import Cal.

(** A clock that starts on 2024-03-04 at 09:00 and shows a new second at
    each reading. *)
Definition clock (k : nat) : datetime :=
  combine (mkDate 2024 3 4) (mkTime 9 (Z.of_nat k / 60 mod 60) (Z.of_nat k mod 60) 250).

(** A clock stopped at 09:00:05 sharp. *)
Definition frozen (k : nat) : datetime :=
  combine (mkDate 2024 3 4) (mkTime 9 0 5 0).

Definition essay : task :=
  mkTask "Essay" "" "Writing" "High" "Pending" "2024-01-01T08:00:00"
         (Some "2024-01-01T17:00:00") None 30 "Daily".

Definition review : task :=
  mkTask "Review" "" "Reading" "Low" "Pending" "2024-01-01T08:05:00"
         (Some "next friday") None 30 "Weekly".

Definition last_day : task :=
  mkTask "Backup" "" "Ops" "Low" "Pending" "2024-01-01T08:10:00"
         (Some "9999-12-31T17:00:00") None 30 "Daily".

(** Three pending tasks, no session, no timer. *)
Definition w_tasks : World :=
  mkWorld (<[1 := essay]> (<[2 := review]> (<[3 := last_day]> ∅))) 3 [] 0 None None 5.

(** The same store with a Pomodoro running on task 1. *)
Definition w_running : World :=
  mkWorld (tasks w_tasks) 3 [] 0 (Some 1) (Some "2024-03-04T09:00:05") 6.

(** The same store with three logged sessions. *)
Definition w_logged : World :=
  mkWorld (tasks w_tasks) 3
          [mkSession 1 1 "2024-03-04T09:00:00" "2024-03-04T09:00:00" 40;
           mkSession 2 2 "2024-03-05T10:00:00" "2024-03-05T10:00:00" 480;
           mkSession 3 1 "2024-03-04T11:00:00" "2024-03-04T11:00:00" (161 # 2)]
          3 None None 9.

(** The world after "Draft chapter" has been added to an empty store and
    completed with 45 logged minutes, by the clock above. *)
Definition w_done : World :=
  mkWorld
    (<[1 := mkTask "Draft chapter" "" "Writing" "Medium" "Completed"
              "2024-03-04T09:00:00" (Some "2024-03-08T17:00:00")
              (Some "2024-03-04T09:00:01") 30 "None"]> ∅)
    1
    [mkSession 1 1 "2024-03-04T09:00:02" "2024-03-04T09:00:03" 45]
    1 None None 4.

Definition writing_form : new_task_form :=
  mkForm "Draft chapter" "Writing" "Medium" (mkDate 2024 3 8) (mkTime 17 0 0 0) "None" "".

(** U+00A0, NO-BREAK SPACE, in UTF-8. *)
Definition nbsp : string := String (ascii_of_nat 194) (String (ascii_of_nat 160) "").

(** A form whose category is a space, a no-break space and a tab. *)
Definition blank_form : new_task_form :=
  mkForm "Call the bank" (String " " (String (ascii_of_nat 194)
                            (String (ascii_of_nat 160) (String (ascii_of_nat 9) ""))))
         "Medium" (mkDate 2024 3 8) (mkTime 17 0 0 0) "None" "".

Definition reading_form : new_task_form :=
  mkForm "Read paper" "Reading" "Low" (mkDate 2024 3 8) (mkTime 17 0 0 0) "None" "".

(** The readings of a clock over two weeks; after the last one the clock
    stands still. *)
Definition diary_readings : list datetime :=
  [combine (mkDate 2024 2 20) (mkTime 8 0 0 0);
   combine (mkDate 2024 2 20) (mkTime 8 1 0 0);
   combine (mkDate 2024 2 20) (mkTime 9 9 0 0);
   combine (mkDate 2024 2 20) (mkTime 9 10 0 0);
   combine (mkDate 2024 2 20) (mkTime 9 10 1 0);
   combine (mkDate 2024 3 1) (mkTime 9 29 0 0);
   combine (mkDate 2024 3 1) (mkTime 9 30 0 0);
   combine (mkDate 2024 3 1) (mkTime 9 30 1 0);
   combine (mkDate 2024 3 2) (mkTime 10 4 0 0);
   combine (mkDate 2024 3 2) (mkTime 10 5 0 0);
   combine (mkDate 2024 3 2) (mkTime 10 5 1 0);
   combine (mkDate 2024 3 2) (mkTime 11 14 0 0);
   combine (mkDate 2024 3 2) (mkTime 11 15 0 0);
   combine (mkDate 2024 3 2) (mkTime 11 15 1 0);
   combine (mkDate 2024 3 4) (mkTime 14 0 0 0);
   combine (mkDate 2024 3 4) (mkTime 14 1 3 0)].

Definition diary (k : nat) : datetime :=
  nth k diary_readings (combine (mkDate 2024 3 4) (mkTime 18 0 0 0)).

(** The store after a fortnight by that clock: "Draft chapter" and "Read
    paper" are added through the form; 45 minutes are logged on the paper on
    20 February; on the chapter 69 minutes are logged on 1 March, 0.2 and
    0.4 minutes on 2 March, and a Pomodoro of 63 seconds is saved on
    4 March. *)
Definition w_week : World :=
  mkWorld
    (<[1 := mkTask "Draft chapter" "" "Writing" "Medium" "Completed"
              "2024-02-20T08:00:00" (Some "2024-03-08T17:00:00")
              (Some "2024-03-02T11:14:00") 30 "None"]>
       (<[2 := mkTask "Read paper" "" "Reading" "Low" "Completed"
                 "2024-02-20T08:01:00" (Some "2024-03-08T17:00:00")
                 (Some "2024-02-20T09:09:00") 30 "None"]> ∅))
    2
    [mkSession 1 2 "2024-02-20T09:10:00" "2024-02-20T09:10:01" 45;
     mkSession 2 1 "2024-03-01T09:30:00" "2024-03-01T09:30:01" 69;
     mkSession 3 1 "2024-03-02T10:05:00" "2024-03-02T10:05:01" (1 # 5);
     mkSession 4 1 "2024-03-02T11:15:00" "2024-03-02T11:15:01" (2 # 5);
     mkSession 5 1 "2024-03-04T14:00:00" "2024-03-04T14:01:03" (Flt.div 63 60)]
    5 None None 16.



(** A clock that moves on one minute with every reading, up to 09:59. *)
Definition steady (k : nat) : datetime :=
  combine (mkDate 2024 3 4) (mkTime 9 (Z.min 59 (Z.of_nat k)) 0 0).

(** The world after "Draft chapter" has been added to an empty store and a
    Pomodoro started on it, by the steady clock. *)
Definition w_timing : World :=
  mkWorld
    (<[1 := mkTask "Draft chapter" "" "Writing" "Medium" "Pending"
              "2024-03-04T09:00:00" (Some "2024-03-08T17:00:00") None 30 "None"]> ∅)
    1 [] 0 (Some 1) (Some "2024-03-04T09:01:00") 2.

(** A timer whose recorded start lies ahead of the clock above. *)
Definition w_set_back : World :=
  mkWorld (tasks w_tasks) 3 [] 0 (Some 1) (Some "2024-03-04T09:30:00") 6.
End Sample.

(* ===================================================================== *)
(** ** The engine *)
(* ===================================================================== *)

Section Engine.
Set Default Proof Using "Type".

(** [dt.datetime.now()]: the k-th reading of the clock. *)
Variable clock : nat → Cal.datetime.
(** [dt.datetime.fromisoformat]; [None] where it raises [ValueError]. *)
Variable fromisoformat : string → option Cal.datetime.
(** [pd.to_datetime] on one cell; [None] where it raises. *)
Variable to_datetime : string → option Cal.datetime.

Definition now : M Cal.datetime :=
  λ w, Returned (clock (ticks w))
         (mkWorld (tasks w) (tasks_seq w) (work_sessions w) (work_sessions_seq w)
                  (pom_task w) (pom_start_at w) (S (ticks w))).

Definition now_iso : M string :=
  let! t := now in ret (Iso.isoformat_seconds t).

(** [INSERT INTO tasks(...)]: AUTOINCREMENT picks an id above every id
    the table holds or has ever held. *)
Definition insert_task (t : task) : M unit :=
  modify (λ w,
    let id := Z.max (tasks_seq w) (max_rowid (tasks w)) + 1 in
    mkWorld (<[id := t]> (tasks w)) id (work_sessions w) (work_sessions_seq w)
            (pom_task w) (pom_start_at w) (ticks w)).

(** [INSERT INTO work_sessions(task_id,start_time,end_time,duration_minutes)] *)
Definition insert_session (tid : Z) (start stop : string) (mins : Q) : M unit :=
  modify (λ w,
    let id := Z.max (work_sessions_seq w) (max_session_id (work_sessions w)) + 1 in
    mkWorld (tasks w) (tasks_seq w)
            (work_sessions w ++ [mkSession id tid start stop mins]) id
            (pom_task w) (pom_start_at w) (ticks w)).

(** [UPDATE tasks SET completed_at=?,status='Completed' WHERE id=?] *)
Definition mark_completed (at_ : string) (id : Z) : M unit :=
  modify (λ w,
    mkWorld (alter (λ t, mkTask (title t) (description t) (category t) (priority t)
                           "Completed" (created_at t) (due_at t) (Some at_)
                           (predicted_minutes t) (recurrence t)) id (tasks w))
            (tasks_seq w) (work_sessions w) (work_sessions_seq w)
            (pom_task w) (pom_start_at w) (ticks w)).

(** [fetch("SELECT * FROM tasks WHERE id=?", (task_id,)).iloc[0]] *)
Definition fetch_task (id : Z) : M task :=
  λ w, match tasks w !! id with
       | Some t => Returned t w
       | None => Raised IndexError w
       end.

Definition get_pending (w : World) : list (Z * task) :=
  filter (λ p, status p.2 = "Pending") (map_to_list (tasks w)).

Definition get_completed (w : World) : list (Z * task) :=
  filter (λ p, status p.2 = "Completed") (map_to_list (tasks w)).

Definition get_sessions (w : World) : list session_row :=
  (λ s, match tasks w !! task_id s with
        | Some t => mkRow s (Some (title t)) (Some (category t))
        | None => mkRow s None None
        end) <$> work_sessions w.

Definition avg_time_category (w : World) : list (string * Q) :=
  let df := get_sessions w in
  match df with
  | [] => []
  | _ => (λ g, (g.1, Flt.group_mean (duration_minutes ∘ sr_session <$> g.2)))
           <$> groupby str_le sr_category df
  end.

Definition predict_time (w : World) (cat : string) : Q :=
  let avg := avg_time_category w in
  match dict_get cat avg with
  | Some v => Flt.py_round1 v
  | None =>
      match avg with
      | _ :: _ => Flt.py_round1 (Flt.series_mean (snd <$> avg))
      | [] => 30
      end
  end.

(** The [timedelta] of [recur_create], in days. *)
Definition recur_delta (type : string) : nat :=
  if decide (type = "Daily") then 1%nat
  else if decide (type = "Weekly") then 7%nat
  else 0%nat.

Definition recur_create (old : task) (type : string) : M unit :=
  match due_at old with
  | None => ret tt
  | Some due =>
      if negb (Text.truthy due) then ret tt
      else match fromisoformat due with
           | None => ret tt
           | Some dt_old =>
               match Cal.add_days dt_old (recur_delta type) with
               | None => raise OverflowError
               | Some new =>
                   let! created := now_iso in
                   insert_task
                     (mkTask (title old) (description old) (category old)
                             (priority old) "Pending" created
                             (Some (Iso.isoformat new)) None
                             (predicted_minutes old) type)
               end
           end
  end.

Definition complete (task_id : Z) (mins : option Q) : M unit :=
  let! row := fetch_task task_id in
  let! at_ := now_iso in
  mark_completed at_ task_id ;;
  match mins with
  | Some m =>
      if Qlt_le_dec 0 m
      then let! start := now_iso in
           let! stop := now_iso in
           insert_session task_id start stop m
      else ret tt
  | None => ret tt
  end ;;
  if decide (recurrence row ≠ "None")
  then recur_create row (recurrence row)
  else ret tt.

(** ** Pomodoro state *)

Definition pom_start (id : Z) : M unit :=
  modify (λ w, mkWorld (tasks w) (tasks_seq w) (work_sessions w)
                       (work_sessions_seq w) (Some id) (pom_start_at w) (ticks w)) ;;
  let! t := now_iso in
  modify (λ w, mkWorld (tasks w) (tasks_seq w) (work_sessions w)
                       (work_sessions_seq w) (pom_task w) (Some t) (ticks w)).

(** Truthiness of [st.session_state.pom_task]: [None] and 0 are false. *)
Definition id_truthy (o : option Z) : option Z :=
  match o with
  | Some id => if id =? 0 then None else Some id
  | None => None
  end.

(** Truthiness of [st.session_state.pom_start]. *)
Definition start_truthy (o : option string) : option string :=
  match o with
  | Some s => if Text.truthy s then Some s else None
  | None => None
  end.

(** The test [tid and start] of the Pomodoro tab and of [pom_stop]. *)
Definition timer_active (w : World) : bool :=
  match id_truthy (pom_task w), start_truthy (pom_start_at w) with
  | Some _, Some _ => true
  | _, _ => false
  end.

Definition pom_stop (save : bool) : M unit :=
  let! id := gets pom_task in
  let! start := gets pom_start_at in
  modify (λ w, mkWorld (tasks w) (tasks_seq w) (work_sessions w)
                       (work_sessions_seq w) None None (ticks w)) ;;
  match save, id_truthy id, start_truthy start with
  | true, Some id, Some start =>
      match fromisoformat start with
      | None => raise ValueError
      | Some s =>
          let! e := now in
          let mins := Num.py_max 1 (Flt.div (Flt.rnd (Cal.total_seconds e s)) 60) in
          insert_session id start (Iso.isoformat_seconds e) mins
      end
  | _, _, _ => ret tt
  end.

(** ** Analytics *)



(** ** The [new_task] form *)

(** The estimate shown by the form and stored with the task. *)
Definition form_pred (w : World) (cat : string) : Q :=
  if Text.truthy (Text.strip cat) then predict_time w cat else 30.

(** Pressing "Add Task"; [false] when the title is refused. *)
Definition add_task (f : new_task_form) : M bool :=
  let! pred := gets (λ w, form_pred w (f_cat f)) in
  if negb (Text.truthy (Text.strip (f_title f))) then ret false
  else
    let due := Iso.isoformat (Cal.combine (f_d f) (f_t f)) in
    let! created := now_iso in
    insert_task
      (mkTask (Text.strip (f_title f))
              (if Text.truthy (f_desc f) then Text.strip (f_desc f) else "")
              (Text.strip (f_cat f)) (f_priority f) "Pending" created
              (Some due) None pred (f_rec f)) ;;
    ret true.

(** ** Runs of the engine *)

(** One call into the engine from the presentation layer, with any
    arguments; the world that remains is the one the call leaves, also
    when it raises. *)
Inductive step : World → World → Prop :=
| step_add_task f w : step w (world_after (add_task f w))
| step_complete id mins w : step w (world_after (complete id mins w))
| step_pom_start id w : step w (world_after (pom_start id w))
| step_pom_stop save w : step w (world_after (pom_stop save w)).

Definition reachable (w : World) : Prop := rtc step initial_world w.

(** ** Vocabulary of the specification *)

(** The category of the task that owns a session. *)
Definition owner_category (w : World) (s : work_session) : option string :=
  category <$> tasks w !! task_id s.

(** Durations of the sessions whose owning task has category [c]. *)
Definition durations_of (w : World) (c : string) : list Q :=
  duration_minutes <$> filter (λ s, owner_category w s = Some c) (work_sessions w).

(** The mean of the sessions of category [c], as [groupby(...).mean()]
    forms it. *)
Definition category_mean (w : World) (c : string) : Q :=
  Flt.group_mean (durations_of w c).

(** The invariant of a task row. *)
Definition task_wf (t : task) : Prop :=
  (status t = "Pending" ∨ status t = "Completed")
  ∧ (is_Some (completed_at t) ↔ status t = "Completed").

(** The row [complete] leaves in place of [t]. *)
Definition completed_row (at_ : string) (t : task) : task :=
  mkTask (title t) (description t) (category t) (priority t) "Completed"
         (created_at t) (due_at t) (Some at_) (predicted_minutes t) (recurrence t).

(** The row [recur_create] inserts for [old]. *)
Definition successor_row (old : task) (type created due : string) : task :=
  mkTask (title old) (description old) (category old) (priority old) "Pending"
         created (Some due) None (predicted_minutes old) type.

(** How one engine call may change the tasks table: a row stays or
    becomes its completed form, and a new row is Pending with no
    completion time; no row disappears. *)
Definition tasks_evolve (m m' : gmap Z task) : Prop :=
  ∀ id,
    match m !! id, m' !! id with
    | Some t, Some t' => t' = t ∨ ∃ at_, t' = completed_row at_ t
    | None, Some t' => status t' = "Pending" ∧ completed_at t' = None
    | Some _, None => False
    | None, None => True
    end.

(** The calendar date on which a session started. *)
Definition session_date (s : work_session) : option Cal.date :=
  Cal.dt_date <$> to_datetime (start_time s).

(** Minutes logged on date [d]. *)
Definition minutes_on (w : World) (d : Cal.date) : Q :=
  Num.sum (duration_minutes <$> filter (λ s, session_date s = Some d) (work_sessions w)).


(** Text printed by [isoformat(timespec="seconds")] for a real datetime. *)
Definition timestamp (s : string) : Prop :=
  ∃ d, Cal.datetime_ok d = true ∧ s = Iso.isoformat_seconds d.

(** The clock only returns real datetimes. *)
Definition clock_ok : Prop := ∀ k, Cal.datetime_ok (clock k) = true.

(** A parser reads back what [isoformat(timespec="seconds")] prints. *)
Definition reads_timestamps (parser : string → option Cal.datetime) : Prop :=
  ∀ d, Cal.datetime_ok d = true →
       parser (Iso.isoformat_seconds d) = Some (Cal.trunc_seconds d).

(** The world with the timer fields reset. *)
Definition timer_cleared (w : World) : World :=
  mkWorld (tasks w) (tasks_seq w) (work_sessions w) (work_sessions_seq w)
          None None (ticks w).

(** ** Vocabulary of the further properties *)

(** The world [complete] leaves after its UPDATE of row [t] at [id]. *)
Definition after_mark (w : World) (id : Z) (t : task) : World :=
  mkWorld (<[id := completed_row (Iso.isoformat_seconds (clock (ticks w))) t]> (tasks w))
          (tasks_seq w) (work_sessions w) (work_sessions_seq w)
          (pom_task w) (pom_start_at w) (S (ticks w)).

(** The session [complete] inserts for [m] minutes in world [w]. *)
Definition logged_session (w : World) (id : Z) (m : Q) : work_session :=
  mkSession (Z.max (work_sessions_seq w) (max_session_id (work_sessions w)) + 1) id
            (Iso.isoformat_seconds (clock (ticks w)))
            (Iso.isoformat_seconds (clock (S (ticks w)))) m.

(** The world after the optional INSERT of the logged minutes. *)
Definition after_log (w : World) (id : Z) (mins : option Q) : World :=
  match mins with
  | Some m =>
      if Qlt_le_dec 0 m
      then mkWorld (tasks w) (tasks_seq w)
                   (work_sessions w ++ [logged_session w id m])
                   (Z.max (work_sessions_seq w) (max_session_id (work_sessions w)) + 1)
                   (pom_task w) (pom_start_at w) (S (S (ticks w)))
      else w
  | None => w
  end.

(** The columns of a task that no statement of the program updates. *)
Definition same_fixed_columns (t t' : task) : Prop :=
  title t' = title t ∧ description t' = description t
  ∧ category t' = category t ∧ priority t' = priority t
  ∧ created_at t' = created_at t ∧ due_at t' = due_at t
  ∧ predicted_minutes t' = predicted_minutes t ∧ recurrence t' = recurrence t.

(** The row the [new_task] form inserts in world [w]. *)
Definition form_row (f : new_task_form) (w : World) : task :=
  mkTask (Text.strip (f_title f))
         (if Text.truthy (f_desc f) then Text.strip (f_desc f) else "")
         (Text.strip (f_cat f)) (f_priority f) "Pending"
         (Iso.isoformat_seconds (clock (ticks w)))
         (Some (Iso.isoformat (Cal.combine (f_d f) (f_t f)))) None
         (form_pred w (f_cat f)) (f_rec f).

(** ** Runs driven by the pages *)

(** One click on the pages.  The task tab offers "Mark Completed", "Start
    Pomodoro" and "Save Time" (with more than 0 minutes) for the rows of
    [get_pending]; the Pomodoro tab offers "Stop & Save" and "Cancel" while
    [tid and start] holds; the form adds a task. *)
Inductive ui_step : World → World → Prop :=
| ui_add_task f w :
    ui_step w (world_after (add_task f w))
| ui_mark_completed id t w :
    (id, t) ∈ get_pending w →
    ui_step w (world_after (complete id None w))
| ui_save_time id t m w :
    (id, t) ∈ get_pending w → (0 < m)%Q →
    ui_step w (world_after (complete id (Some m) w))
| ui_start_pomodoro id t w :
    (id, t) ∈ get_pending w →
    ui_step w (world_after (pom_start id w))
| ui_stop save w :
    timer_active w = true →
    ui_step w (world_after (pom_stop save w)).

Definition ui_reachable (w : World) : Prop := rtc ui_step initial_world w.

(** ** The weekly score *)



(** The world after one reading of the clock. *)
Definition ticked (w : World) : World :=
  mkWorld (tasks w) (tasks_seq w) (work_sessions w) (work_sessions_seq w)
          (pom_task w) (pom_start_at w) (S (ticks w)).

(** ** The best hours *)

(** [Series.sort_values(ascending=False)] on the hour totals.  The default
    sort of pandas is not stable, so which of two equal totals comes first
    is not fixed by the program: the sort is a parameter, of which only
    [sorts_desc] is assumed. *)
Variable sort_values_desc : list (Z * Q) → list (Z * Q).






(** ** The dashboard *)


(** ** The Pomodoro tab *)

(** [x // y] and [x % y] on numbers, for a positive [y]. *)
Definition floordiv (x y : Q) : Q := inject_Z (Qfloor (x / y)).
Definition pymod (x y : Q) : Q := (x - y * floordiv x y)%Q.

(** [int(x)]: the integer part, toward zero. *)
Definition int_of (x : Q) : Z := if Qle_bool 0 x then Qfloor x else Qceiling x.

(** [f"{n:02d}"] followed by [k]. *)
Definition fmt_02d (n : Z) (k : string) : string :=
  if decide (0 ≤ n < 10) then "0" ++ pretty n ++ k else pretty n ++ k.

(** The countdown of a running timer: the text of the subheader and the
    value handed to [st.progress]; [None] where the tab shows its hint
    instead. *)
Definition pomodoro_view : M (option (string * Q)) :=
  let! tid := gets pom_task in
  let! start := gets pom_start_at in
  match id_truthy tid, start_truthy start with
  | Some _, Some start =>
      match fromisoformat start with
      | None => raise ValueError
      | Some start_dt =>
          let total := 1500%Q in
          let! e := now in
          let elapsed := Cal.total_seconds e start_dt in
          let rem := Num.py_max 0 (total - elapsed) in
          ret (Some (fmt_02d (int_of (floordiv rem 60))
                       (":" ++ fmt_02d (int_of (pymod rem 60)) " remaining"),
                     (1 - rem / total)%Q))
      end
  | _, _ => ret None
  end.

(** The clock never runs back. *)
Definition clock_monotone : Prop :=
  ∀ i j, (i ≤ j)%nat → Cal.to_micro (clock i) ≤ Cal.to_micro (clock j).
(* =================================================================== *)
(** ** Facts about text *)
(* =================================================================== *)

Lemma lstrip_skip (s : string) :
  Text.lstrip s = match Text.skip_space s with Some r => Text.lstrip r | None => s end.
Proof.
  destruct s as [|a r1]; [done|].
  change (Text.lstrip (String a r1)) with
    (if Text.isspace1 a then Text.lstrip r1
     else match r1 with
          | String b r2 =>
              if Text.isspace2 a b then Text.lstrip r2
              else match r2 with
                   | String c r3 =>
                       if Text.isspace3 a b c then Text.lstrip r3 else String a r1
                   | EmptyString => String a r1
                   end
          | EmptyString => String a r1
          end).
  unfold Text.skip_space. destruct (Text.isspace1 a); [done|].
  destruct r1 as [|b r2]; [done|]. destruct (Text.isspace2 a b); [done|].
  destruct r2 as [|c r3]; [done|]. by destruct (Text.isspace3 a b c).
Qed.

Lemma blank_skip (s : string) :
  Text.blank s = match Text.skip_space s with
                 | Some r => Text.blank r
                 | None => negb (Text.truthy s)
                 end.
Proof.
  destruct s as [|a r1]; [done|].
  change (Text.blank (String a r1)) with
    (if Text.isspace1 a then Text.blank r1
     else match r1 with
          | String b r2 =>
              if Text.isspace2 a b then Text.blank r2
              else match r2 with
                   | String c r3 => if Text.isspace3 a b c then Text.blank r3 else false
                   | EmptyString => false
                   end
          | EmptyString => false
          end).
  unfold Text.skip_space. destruct (Text.isspace1 a); [done|].
  destruct r1 as [|b r2]; [done|]. destruct (Text.isspace2 a b); [done|].
  destruct r2 as [|c r3]; [done|]. by destruct (Text.isspace3 a b c).
Qed.

Lemma skip_space_length (s r : string) :
  Text.skip_space s = Some r → (String.length r < String.length s)%nat.
Proof.
  unfold Text.skip_space. destruct s as [|a r1]; [done|].
  destruct (Text.isspace1 a); [intros [= <-]; cbn; lia|].
  destruct r1 as [|b r2]; [done|].
  destruct (Text.isspace2 a b); [intros [= <-]; cbn; lia|].
  destruct r2 as [|c r3]; [done|].
  destruct (Text.isspace3 a b c); [intros [= <-]; cbn; lia|done].
Qed.

Lemma skip_space_app (s r v : string) :
  Text.skip_space s = Some r → Text.skip_space (s ++ v) = Some (r ++ v).
Proof.
  destruct s as [|a r1]; [done|].
  change (String a r1 ++ v) with (String a (r1 ++ v)).
  unfold Text.skip_space. cbv beta iota.
  destruct (Text.isspace1 a); [by intros [= <-]|].
  destruct r1 as [|b r2]; [done|].
  change (String b r2 ++ v) with (String b (r2 ++ v)). cbv beta iota.
  destruct (Text.isspace2 a b); [by intros [= <-]|].
  destruct r2 as [|c r3]; [done|].
  change (String c r3 ++ v) with (String c (r3 ++ v)). cbv beta iota.
  destruct (Text.isspace3 a b c); [by intros [= <-]|done].
Qed.

(** Induction along the white space at the head of a text. *)
Lemma skip_space_ind (P : string → Prop) :
  (∀ s, (∀ r, Text.skip_space s = Some r → P r) → P s) → ∀ s, P s.
Proof.
  intros Hstep s. remember (String.length s) as n eqn:Hn. revert s Hn.
  induction n as [n IH] using lt_wf_ind. intros s ->.
  apply Hstep. intros r Hr. apply (IH (String.length r)); [|done].
  by apply skip_space_length.
Qed.

Lemma lstrip_blank s : Text.blank s = true → Text.lstrip s = "".
Proof.
  induction s as [s IH] using skip_space_ind.
  rewrite blank_skip, lstrip_skip. destruct (Text.skip_space s) as [r|]; [by apply IH|].
  by destruct s.
Qed.

Lemma lstrip_stops s : Text.skip_space (Text.lstrip s) = None.
Proof.
  induction s as [s IH] using skip_space_ind.
  rewrite lstrip_skip. destruct (Text.skip_space s) as [r|] eqn:E; [by apply IH|done].
Qed.

Lemma blank_lstrip s : Text.blank (Text.lstrip s) = Text.blank s.
Proof.
  induction s as [s IH] using skip_space_ind.
  rewrite lstrip_skip, (blank_skip s).
  destruct (Text.skip_space s) as [r|] eqn:E; [by apply IH|].
  by rewrite blank_skip, E.
Qed.

Lemma rstrip_truthy s : Text.truthy (Text.rstrip s) = negb (Text.blank s).
Proof.
  destruct s as [|a r]; [done|]. cbn [Text.rstrip].
  by destruct (Text.blank (String a r)).
Qed.

Lemma strip_truthy s : Text.truthy (Text.strip s) = negb (Text.blank s).
Proof. unfold Text.strip. by rewrite rstrip_truthy, blank_lstrip. Qed.

Lemma strip_blank s : Text.blank s = true → Text.strip s = "".
Proof. intros Hb. unfold Text.strip. by rewrite lstrip_blank. Qed.

Lemma blank_app (a b : string) :
  Text.blank a = true → Text.blank (a ++ b) = Text.blank b.
Proof.
  induction a as [a IH] using skip_space_ind.
  rewrite (blank_skip a). destruct (Text.skip_space a) as [r|] eqn:E.
  - intros Hr. rewrite (blank_skip (a ++ b)), (skip_space_app _ _ _ E). by apply IH.
  - destruct a; [done|]. done.
Qed.

(** What [rstrip] cuts off is white space. *)
Lemma rstrip_split (s : string) :
  ∃ v, s = Text.rstrip s ++ v ∧ Text.blank v = true.
Proof.
  induction s as [|a r (v & Hv & Hblank)].
  { by exists "". }
  cbn [Text.rstrip]. destruct (Text.blank (String a r)) eqn:E.
  - by exists (String a r).
  - exists v. split; [|done].
    change (String a (Text.rstrip r) ++ v) with (String a (Text.rstrip r ++ v)).
    by rewrite <- Hv.
Qed.

Lemma rstrip_idem (s : string) : Text.rstrip (Text.rstrip s) = Text.rstrip s.
Proof.
  induction s as [|a r IH]; [done|].
  cbn [Text.rstrip]. destruct (Text.blank (String a r)) eqn:E; [done|].
  cbn [Text.rstrip]. rewrite IH.
  destruct (Text.blank (String a (Text.rstrip r))) eqn:E'; [|done].
  destruct (rstrip_split r) as (v & Hv & Hblank).
  pose proof (blank_app (String a (Text.rstrip r)) v E') as Happ.
  change (String a (Text.rstrip r) ++ v) with (String a (Text.rstrip r ++ v)) in Happ.
  rewrite <- Hv in Happ. congruence.
Qed.

Lemma rstrip_keeps_head (s : string) :
  Text.skip_space s = None → Text.skip_space (Text.rstrip s) = None.
Proof.
  intros Hs. destruct (Text.skip_space (Text.rstrip s)) as [r|] eqn:E; [|done].
  destruct (rstrip_split s) as (v & Hv & _).
  apply (skip_space_app _ _ v) in E. rewrite <- Hv in E. congruence.
Qed.

Lemma strip_idem (s : string) : Text.strip (Text.strip s) = Text.strip s.
Proof.
  unfold Text.strip.
  assert (Text.lstrip (Text.rstrip (Text.lstrip s)) = Text.rstrip (Text.lstrip s)) as ->.
  { rewrite lstrip_skip. by rewrite rstrip_keeps_head by apply lstrip_stops. }
  apply rstrip_idem.
Qed.

(* =================================================================== *)
(** ** Facts about row ids *)
(* =================================================================== *)

Lemma foldr_max_ge (l : list Z) x : x ∈ l → x ≤ foldr Z.max 0 l.
Proof.
  induction 1 as [x l|x y l _ IH]; simpl; lia.
Qed.

Lemma max_rowid_ge {V} (t : gmap Z V) k : is_Some (t !! k) → k ≤ max_rowid t.
Proof.
  intros Hk. apply foldr_max_ge, elem_of_elements, elem_of_dom, Hk.
Qed.

(** The id AUTOINCREMENT picks is not in the table. *)
Lemma fresh_rowid {V} (t : gmap Z V) seq :
  t !! (Z.max seq (max_rowid t) + 1) = None.
Proof.
  destruct (t !! _) eqn:E; [|done].
  apply mk_is_Some, max_rowid_ge in E. lia.
Qed.

(* =================================================================== *)
(** ** Facts about numbers *)
(* =================================================================== *)

Lemma round_half_even_proper (p q : Q) :
  (p == q)%Q → Num.round_half_even p = Num.round_half_even q.
Proof.
  intros Heq. unfold Num.round_half_even.
  rewrite (Qfloor_comp _ _ Heq).
  assert ((p - inject_Z (Qfloor q) ?= 1 # 2) = (q - inject_Z (Qfloor q) ?= 1 # 2))%Q
    as -> by by rewrite Heq.
  done.
Qed.


(* =================================================================== *)
(** ** Bounds on rounded values *)
(* =================================================================== *)


Lemma floor_succ_le (n : Z) (q : Q) :
  (0 < q - inject_Z (Qfloor q))%Q → (q <= inject_Z n)%Q → Qfloor q + 1 ≤ n.
Proof.
  intros Hfrac Hle.
  assert (inject_Z (Qfloor q) < inject_Z n)%Q as Hlt.
  { apply Qlt_le_trans with q; [|done]. by apply Qlt_minus_iff. }
  rewrite <- Zlt_Qlt in Hlt. lia.
Qed.

Lemma round_half_even_upper (n : Z) (q : Q) :
  (q <= inject_Z n)%Q → Num.round_half_even q ≤ n.
Proof.
  intros Hle. assert (Qfloor q ≤ n) as Hfloor.
  { rewrite <- (Qfloor_Z n). by apply Qfloor_resp_le. }
  unfold Num.round_half_even.
  destruct (_ ?= _)%Q eqn:Hcmp; [destruct (Z.even _); [lia|]|lia|].
  - apply floor_succ_le; [|done]. apply Qeq_alt in Hcmp. by rewrite Hcmp.
  - apply floor_succ_le; [|done]. apply Qgt_alt in Hcmp.
    by apply Qlt_trans with (1 # 2)%Q.
Qed.

(* =================================================================== *)
(** ** Facts about doubles *)
(* =================================================================== *)

Lemma pow2_pos (e : Z) : (0 < Flt.pow2 e)%Q.
Proof.
  destruct e as [|p|p]; cbn [Flt.pow2]; [done| |done].
  rewrite <- (Zlt_Qlt 0). by apply Z.pow_pos_nonneg.
Qed.

(** Below 1 the unit in the last place is the reciprocal of a whole
    number. *)
Lemma pow2_nonpos (e : Z) :
  e ≤ 0 → (Flt.pow2 e * inject_Z (2 ^ (- e)) == 1)%Q.
Proof.
  intros He. destruct e as [|p|p]; [done|lia|].
  cbn [Flt.pow2]. unfold Qeq, Qmult, inject_Z. cbn [Qnum Qden].
  rewrite Pos.mul_1_r, Pos2Z.inj_pow. change (- Z.neg p) with (Z.pos p). lia.
Qed.


Lemma rnd_nonpos (x : Q) : (x <= 0)%Q → (Flt.rnd x <= 0)%Q.
Proof.
  intros Hx. unfold Flt.rnd. rewrite Qred_correct.
  pose proof (pow2_pos (Flt.ulp_exp x)) as Hp.
  assert (Num.round_half_even (x / Flt.pow2 (Flt.ulp_exp x)) ≤ 0) as Hr.
  { apply round_half_even_upper. change (inject_Z 0) with 0%Q.
    apply Qle_shift_div_r; [done|]. lra. }
  rewrite Zle_Qle in Hr. change (inject_Z 0) with 0%Q in Hr.
  set (m := inject_Z _) in *. nra.
Qed.

(** A positive number below 2^53 has its last binary place at or after
    the point. *)
Lemma ulp_exp_small (x : Q) (c : Z) :
  (0 < x)%Q → (x <= inject_Z c)%Q → c < 2 ^ 53 → Flt.ulp_exp x ≤ 0.
Proof.
  intros Hpos Hle Hc. unfold Flt.ulp_exp.
  destruct x as [n d]. cbn [Qnum Qden].
  assert (0 < n) as Hn by (unfold Qlt in Hpos; cbn in Hpos; lia).
  assert (n ≤ c * Z.pos d) as Hnc by (unfold Qle in Hle; cbn in Hle; lia).
  rewrite (Z.abs_eq n) by lia.
  pose proof (Z.log2_spec n Hn) as [Hn1 _].
  pose proof (Z.log2_spec (Z.pos d) eq_refl) as [_ Hd2].
  pose proof (Z.log2_nonneg n) as Hln. pose proof (Z.log2_nonneg (Z.pos d)) as Hld.
  set (a := Z.log2 n) in *. set (b := Z.log2 (Z.pos d)) in *.
  assert (0 < c) as Hc0 by nia.
  assert (a - b ≤ 53) as Hl.
  { destruct (decide (a - b ≤ 53)) as [|Hbig]; [done|]. exfalso.
    assert (2 ^ a = 2 ^ 54 * 2 ^ (a - b - 54) * 2 ^ b) as Ha.
    { rewrite <- !Z.pow_add_r by lia. f_equal. lia. }
    assert (0 < 2 ^ (a - b - 54)) by (apply Z.pow_pos_nonneg; lia).
    assert (0 < 2 ^ b) by (apply Z.pow_pos_nonneg; lia).
    rewrite Z.pow_succ_r in Hd2 by lia. nia. }
  destruct (Qle_bool _ _) eqn:E; [|lia].
  apply Qle_bool_iff in E.
  assert (a - b ≠ 53) as Hne.
  { intros Heq. rewrite Heq in E. cbn [Flt.pow2] in E.
    rewrite Qabs_pos in E by by apply Qlt_le_weak.
    assert (inject_Z (2 ^ 53) <= inject_Z c)%Q as Hcontra
      by (eapply Qle_trans; [exact E|exact Hle]).
    rewrite <- Zle_Qle in Hcontra. lia. }
  lia.
Qed.

(** Rounding to a double never crosses a whole number below 2^53. *)
Lemma rnd_le_int (x : Q) (c : Z) :
  0 < c < 2 ^ 53 → (x <= inject_Z c)%Q → (Flt.rnd x <= inject_Z c)%Q.
Proof.
  intros [Hc0 Hc] Hle. destruct (Qlt_le_dec 0 x) as [Hpos|Hneg].
  2: { apply Qle_trans with 0%Q; [by apply rnd_nonpos|].
       rewrite <- (Zle_Qle 0). lia. }
  pose proof (ulp_exp_small x c Hpos Hle Hc) as He.
  unfold Flt.rnd. rewrite Qred_correct.
  set (e := Flt.ulp_exp x) in *.
  pose proof (pow2_pos e) as Hp. pose proof (pow2_nonpos e He) as Hinv.
  assert (Num.round_half_even (x / Flt.pow2 e) ≤ c * 2 ^ (- e)) as Hr.
  { apply round_half_even_upper. rewrite inject_Z_mult.
    apply Qle_shift_div_r; [done|].
    rewrite <- Qmult_assoc, (Qmult_comm (inject_Z (2 ^ (- e)))), Hinv. lra. }
  rewrite Zle_Qle, inject_Z_mult in Hr.
  set (m := inject_Z (Num.round_half_even _)) in *.
  set (t := inject_Z (2 ^ (- e))) in *.
  assert (m * Flt.pow2 e <= inject_Z c * t * Flt.pow2 e)%Q as Hm.
  { apply Qmult_le_compat_r; [done|by apply Qlt_le_weak]. }
  rewrite <- Qmult_assoc, (Qmult_comm t), Hinv in Hm. lra.
Qed.

Lemma pow2_nonneg_exp (e : Z) : 0 ≤ e → Flt.pow2 e = inject_Z (2 ^ e).
Proof. intros He. destruct e; [done|done|lia]. Qed.

Lemma pow2_succ (e : Z) : (Flt.pow2 (e + 1) == 2 * Flt.pow2 e)%Q.
Proof.
  destruct (Z_lt_le_dec e 0) as [Hneg|Hpos].
  - pose proof (pow2_nonpos e ltac:(lia)) as H1.
    pose proof (pow2_nonpos (e + 1) ltac:(lia)) as H2.
    replace (- e) with (- (e + 1) + 1) in H1 by lia.
    rewrite Z.pow_add_r, inject_Z_mult in H1 by lia.
    change (inject_Z (2 ^ 1)) with 2%Q in H1.
    pose proof (pow2_pos e). pose proof (pow2_pos (e + 1)).
    set (a := Flt.pow2 e) in *. set (b := Flt.pow2 (e + 1)) in *.
    set (c := inject_Z _) in *.
    assert (0 < c)%Q as Hc.
    { unfold c. rewrite <- (Zlt_Qlt 0). apply Z.pow_pos_nonneg; lia. }
    assert ((2 * a - b) * c == 0)%Q as Hz by lra.
    apply Qmult_integral in Hz as [Hz|Hz]; lra.
  - rewrite !pow2_nonneg_exp by lia. rewrite Z.pow_add_r by lia.
    rewrite inject_Z_mult. change (inject_Z (2 ^ 1)) with 2%Q. ring.
Qed.

Lemma pow2_add_nat (e : Z) (n : nat) :
  (Flt.pow2 (e + Z.of_nat n) == Flt.pow2 e * inject_Z (2 ^ Z.of_nat n))%Q.
Proof.
  induction n as [|n IH].
  - rewrite Z.add_0_r. change (inject_Z (2 ^ Z.of_nat 0)) with 1%Q. ring.
  - replace (e + Z.of_nat (S n)) with (e + Z.of_nat n + 1) by lia.
    rewrite pow2_succ, IH.
    replace (Z.of_nat (S n)) with (Z.of_nat n + 1) by lia.
    rewrite Z.pow_add_r, inject_Z_mult by lia.
    change (inject_Z (2 ^ 1)) with 2%Q. ring.
Qed.

(** [2 ** b] is [2 ** a] times a whole power of two when [a <= b]. *)
Lemma pow2_split (a b : Z) :
  a ≤ b → (Flt.pow2 b == inject_Z (2 ^ (b - a)) * Flt.pow2 a)%Q.
Proof.
  intros Hab. pose proof (pow2_add_nat a (Z.to_nat (b - a))) as H.
  rewrite Z2Nat.id in H by lia. replace (a + (b - a)) with b in H by lia.
  rewrite H. ring.
Qed.

Lemma pow2_mono (a b : Z) : a ≤ b → (Flt.pow2 a <= Flt.pow2 b)%Q.
Proof.
  intros Hab. rewrite (pow2_split a b Hab).
  pose proof (pow2_pos a).
  assert (1 <= inject_Z (2 ^ (b - a)))%Q as H1.
  { rewrite <- (Zle_Qle 1). pose proof (Z.pow_pos_nonneg 2 (b - a)). lia. }
  nra.
Qed.

Lemma pow2_lt_inv (a b : Z) : (Flt.pow2 a < Flt.pow2 b)%Q → a < b.
Proof.
  intros Hlt. destruct (Z_lt_le_dec a b) as [|Hge]; [done|].
  pose proof (pow2_mono b a Hge). lra.
Qed.



































(** The running sums stay enough for the halving. *)
Lemma pairwise_sum_fuel (f f' : nat) (l : list Q) :
  (length l ≤ f)%nat → (length l ≤ f')%nat →
  Flt.pairwise_sum f l = Flt.pairwise_sum f' l.
Proof.
  revert f' l. induction f as [|f IH]; intros f' l Hf Hf'.
  - destruct f'; cbn [Flt.pairwise_sum]; [done|].
    destruct (decide _); [done|lia].
  - destruct f' as [|f']; cbn [Flt.pairwise_sum].
    + destruct (decide _); [done|lia].
    + destruct (decide _) as [|Hbig]; [done|].
      assert (0 < length l / 2 - (length l / 2) mod 8 < length l)%nat as Hn2.
      { pose proof (Nat.divmod_spec (length l) 1 0 1 ltac:(lia)) as Hdm.
        assert (length l / 2 ≥ 64)%nat.
        { apply Nat.div_le_lower_bound; lia. }
        assert (length l / 2 < length l)%nat by (apply Nat.div_lt; lia).
        pose proof (Nat.mod_upper_bound (length l / 2) 8 ltac:(lia)). lia. }
      f_equal; apply IH; rewrite ?length_take, ?length_drop; lia.
Qed.








Lemma sum_nonneg (l : list Q) : Forall (λ q, 0 <= q)%Q l → (0 <= Num.sum l)%Q.
Proof.
  induction 1 as [|q l Hq _ IH]; simpl; [done|].
  replace 0%Q with (0 + 0)%Q by done. by apply Qplus_le_compat.
Qed.


(* =================================================================== *)
(** ** The calendar *)
(* =================================================================== *)

(** Linear arithmetic with division and remainder by constants. *)
Ltac divlia := Z.div_mod_to_equations; lia.

Lemma is_leap_spec (y : Z) :
  Cal.is_leap y = true ↔ y mod 4 = 0 ∧ (y mod 100 ≠ 0 ∨ y mod 400 = 0).
Proof.
  unfold Cal.is_leap.
  rewrite andb_true_iff, orb_true_iff, negb_true_iff, !Z.eqb_eq, Z.eqb_neq. tauto.
Qed.

Lemma days_before_year_succ (y : Z) :
  Cal.days_before_year (y + 1) =
    Cal.days_before_year y + (if Cal.is_leap y then 366 else 365).
Proof.
  unfold Cal.days_before_year. cbv zeta.
  replace (y + 1 - 1) with y by lia.
  destruct (Cal.is_leap y) eqn:E.
  - apply is_leap_spec in E. divlia.
  - assert (¬ (y mod 4 = 0 ∧ (y mod 100 ≠ 0 ∨ y mod 400 = 0))) as H
      by (rewrite <- is_leap_spec; congruence).
    divlia.
Qed.

(** [next_day] is the date with the next ordinal, and it is a date. *)
Lemma next_day_toordinal (d d' : Cal.date) :
  Cal.date_ok d = true → Cal.next_day d = Some d' →
  Cal.toordinal d' = Cal.toordinal d + 1 ∧ Cal.date_ok d' = true.
Proof.
  destruct d as [y m dd]. unfold Cal.date_ok, Cal.next_day, Cal.toordinal,
    Cal.MINYEAR, Cal.MAXYEAR.
  cbn [Cal.year Cal.month Cal.day].
  rewrite !andb_true_iff, !Z.leb_le. intros (((((Hy1 & Hy2) & Hm1) & Hm2) & Hd1) & Hd2).
  destruct (dd <? Cal.days_in_month y m) eqn:E1.
  { intros [= <-]. cbn [Cal.year Cal.month Cal.day]. apply Z.ltb_lt in E1. lia. }
  apply Z.ltb_ge in E1. assert (dd = Cal.days_in_month y m) as -> by lia. clear E1 Hd2.
  destruct (m <? 12) eqn:E2.
  { intros [= <-]. cbn [Cal.year Cal.month Cal.day]. apply Z.ltb_lt in E2.
    assert (m = 1 ∨ m = 2 ∨ m = 3 ∨ m = 4 ∨ m = 5 ∨ m = 6 ∨ m = 7 ∨ m = 8
            ∨ m = 9 ∨ m = 10 ∨ m = 11) as Hm by lia.
    unfold Cal.days_before_month, Cal.days_in_month.
    generalize (Cal.days_before_year y). intros z.
    destruct (Cal.is_leap y); destruct_or!; subst m; simpl; lia. }
  apply Z.ltb_ge in E2. assert (m = 12) as -> by lia.
  destruct (y <? 9999) eqn:E3; [|done]. apply Z.ltb_lt in E3.
  intros [= <-]. cbn [Cal.year Cal.month Cal.day].
  rewrite days_before_year_succ.
  unfold Cal.days_before_month, Cal.days_in_month. cbn.
  destruct (Cal.is_leap y), (Cal.is_leap (y + 1)); cbn; lia.
Qed.

Lemma date_add_days_toordinal (n : nat) (d d' : Cal.date) :
  Cal.date_ok d = true → Cal.date_add_days d n = Some d' →
  Cal.toordinal d' = Cal.toordinal d + Z.of_nat n ∧ Cal.date_ok d' = true.
Proof.
  revert d. induction n as [|n IH]; intros d Hok; cbn [Cal.date_add_days].
  { intros [= <-]. split; [lia|done]. }
  destruct (Cal.next_day d) as [d1|] eqn:Hnext; [|done]. intros Hadd.
  destruct (next_day_toordinal d d1 Hok Hnext) as [Hord Hok1].
  destruct (IH d1 Hok1 Hadd) as [Hord' Hok']. split; [lia|done].
Qed.

(** Adding days moves the ordinal of the date by that many days and keeps
    the time of day. *)
Lemma add_days_spec (n : nat) (d d' : Cal.datetime) :
  Cal.datetime_ok d = true → Cal.add_days d n = Some d' →
  Cal.toordinal (Cal.dt_date d') = Cal.toordinal (Cal.dt_date d) + Z.of_nat n
  ∧ Cal.dt_time d' = Cal.dt_time d
  ∧ Cal.datetime_ok d' = true.
Proof.
  unfold Cal.datetime_ok, Cal.add_days. intros [Hd Ht]%andb_true_iff.
  destruct (Cal.date_add_days (Cal.dt_date d) n) as [d1|] eqn:Hadd; [|done].
  intros [= <-]. cbn [Cal.dt_date Cal.dt_time].
  destruct (date_add_days_toordinal n _ _ Hd Hadd) as [Hord Hok].
  by rewrite Hok, Ht.
Qed.

(* =================================================================== *)
(** ** Reading back the timestamps the program writes *)
(* =================================================================== *)

Lemma digit_val_digit (n : Z) :
  0 ≤ n ≤ 9 → Iso.digit_val (Iso.digit n) = Some n.
Proof.
  intros Hn. unfold Iso.digit_val, Iso.digit.
  rewrite nat_ascii_embedding by lia.
  replace (Z.of_nat (48 + Z.to_nat n) - 48) with n by lia.
  destruct (0 <=? n) eqn:E1; [|lia]. destruct (n <=? 9) eqn:E2; [done|lia].
Qed.

Lemma num2_digits (n : Z) :
  0 ≤ n < 100 → Iso.num2 (Iso.digit (n / 10)) (Iso.digit (n mod 10)) = Some n.
Proof.
  intros Hn. unfold Iso.num2.
  rewrite !digit_val_digit by divlia. simpl. f_equal. divlia.
Qed.

Lemma num4_digits (n : Z) :
  0 ≤ n < 10000 →
  Iso.num4 (Iso.digit (n / 1000)) (Iso.digit (n / 100 mod 10))
           (Iso.digit (n mod 100 / 10)) (Iso.digit (n mod 100 mod 10)) = Some n.
Proof.
  intros Hn. unfold Iso.num4.
  rewrite (num2_digits (n mod 100)) by divlia.
  unfold Iso.num2. rewrite !digit_val_digit by divlia. simpl. f_equal. divlia.
Qed.

Lemma days_in_month_le (y m : Z) : Cal.days_in_month y m ≤ 31.
Proof.
  unfold Cal.days_in_month. destruct (Cal.is_leap y).
  all: destruct m as [|p|p]; try lia.
  all: do 4 (try destruct p as [p|p|]; try lia).
Qed.

Lemma datetime_ok_bounds (d : Cal.datetime) :
  Cal.datetime_ok d = true →
  let dd := Cal.dt_date d in
  let t := Cal.dt_time d in
  (1 ≤ Cal.year dd ≤ 9999 ∧ 1 ≤ Cal.month dd ≤ 12
   ∧ 1 ≤ Cal.day dd ≤ Cal.days_in_month (Cal.year dd) (Cal.month dd))
  ∧ (0 ≤ Cal.hour t < 24 ∧ 0 ≤ Cal.minute t < 60 ∧ 0 ≤ Cal.second t < 60
     ∧ 0 ≤ Cal.microsecond t < 1000000).
Proof.
  unfold Cal.datetime_ok, Cal.date_ok, Cal.time_ok, Cal.MINYEAR, Cal.MAXYEAR.
  rewrite !andb_true_iff. simpl. lia.
Qed.

Lemma trunc_seconds_ok (d : Cal.datetime) :
  Cal.datetime_ok d = true → Cal.datetime_ok (Cal.trunc_seconds d) = true.
Proof.
  unfold Cal.datetime_ok, Cal.time_ok. rewrite !andb_true_iff. simpl.
  intros (? & (((((((? & ?) & ?) & ?) & ?) & ?) & ?) & ?)). repeat split; done.
Qed.

(** [Iso.parse] on nineteen characters with the separators in place. *)
Lemma parse_chars (y1 y2 y3 y4 m1 m2 d1 d2 h1 h2 i1 i2 c1 c2 : ascii) :
  Iso.parse
    (String y1 (String y2 (String y3 (String y4 (String "-"
    (String m1 (String m2 (String "-" (String d1 (String d2 (String "T"
    (String h1 (String h2 (String ":" (String i1 (String i2 (String ":"
    (String c1 (String c2 "")))))))))))))))))))
  = (y ← Iso.num4 y1 y2 y3 y4; m ← Iso.num2 m1 m2; d ← Iso.num2 d1 d2;
     h ← Iso.num2 h1 h2; i ← Iso.num2 i1 i2; c ← Iso.num2 c1 c2;
     let r := Cal.combine (Cal.mkDate y m d) (Cal.mkTime h i c 0) in
     if Cal.datetime_ok r then Some r else None).
Proof. reflexivity. Qed.

(** [Iso.parse] reads back what [isoformat(timespec="seconds")] prints. *)
Lemma parse_isoformat_seconds : reads_timestamps Iso.parse.
Proof.
  intros d Hok. pose proof (trunc_seconds_ok d Hok) as Hok'.
  pose proof (datetime_ok_bounds d Hok) as [(Hy & Hm & Hd) (Hh & Hi & Hs & _)].
  pose proof (days_in_month_le (Cal.year (Cal.dt_date d)) (Cal.month (Cal.dt_date d))).
  destruct d as [[y m dd] [h mi s us]].
  cbn [Cal.dt_date Cal.dt_time Cal.year Cal.month Cal.day
       Cal.hour Cal.minute Cal.second] in *.
  unfold Iso.isoformat_seconds, Iso.date_text, Iso.clock_text, Iso.pad4, Iso.pad2.
  cbn [Cal.dt_date Cal.dt_time Cal.year Cal.month Cal.day
       Cal.hour Cal.minute Cal.second].
  rewrite parse_chars.
  rewrite num4_digits by lia. rewrite !num2_digits by lia.
  cbn [mbind option_bind].
  unfold Cal.trunc_seconds in *.
  cbn [Cal.dt_date Cal.dt_time Cal.hour Cal.minute Cal.second] in *.
  by rewrite Hok'.
Qed.

(* =================================================================== *)
(** ** Starting the timer *)
(* =================================================================== *)

(** C1 (as amended).  [pom_start] has no guard: whether or not a timer is
    running it returns normally, Timer State becomes the given task with
    the current time, and nothing else in the world changes except that
    the clock has been read once. *)
Theorem pom_start_sets_timer (id : Z) (w : World) :
  pom_start id w =
    Returned tt
      (mkWorld (tasks w) (tasks_seq w) (work_sessions w) (work_sessions_seq w)
               (Some id) (Some (Iso.isoformat_seconds (clock (ticks w))))
               (S (ticks w))).
Proof. reflexivity. Qed.

(* =================================================================== *)
(** ** Completing a task *)
(* =================================================================== *)

Lemma alter_present {V} (f : V → V) (m : gmap Z V) k v :
  m !! k = Some v → alter f k m = <[k := f v]> m.
Proof.
  intros Hk. apply map_eq. intros j. destruct (decide (k = j)) as [->|Hne].
  - by rewrite lookup_alter_eq, lookup_insert_eq, Hk.
  - by rewrite lookup_alter_ne, lookup_insert_ne.
Qed.

(** C2.  Completing an id that is not in the store fails at the row fetch
    ([.iloc[0]] on an empty frame, the not-found error of the engine),
    before any write: the world, and with it tasks and work sessions, is
    the one before the call. *)
Theorem complete_missing_task (task_id : Z) (mins : option Q) (w : World) :
  tasks w !! task_id = None →
  complete task_id mins w = Raised IndexError w.
Proof.
  intros Hnone. unfold complete, bind, fetch_task. by rewrite Hnone.
Qed.

(** [recur_create] does nothing when the due date is absent, empty or
    refused by the parser. *)
Lemma recur_create_skips (old : task) (type : string) (w : World) :
  match due_at old with
  | None => True
  | Some s => s = "" ∨ fromisoformat s = None
  end →
  recur_create old type w = Returned tt w.
Proof.
  unfold recur_create. destruct (due_at old) as [s|]; [|done].
  intros [->|Hbad]; [done|].
  destruct (Text.truthy s); simpl; [|done]. by rewrite Hbad.
Qed.

(** C5.  Completing a recurring task whose due date is absent (NULL or
    empty) or unparseable returns normally; the task row becomes
    Completed with [completed_at] set to the time of the call, and the
    tasks table holds no other change: no successor is created. *)
Theorem complete_skips_bad_due_date (task_id : Z) (mins : option Q) (w : World) (t : task) :
  tasks w !! task_id = Some t →
  recurrence t ≠ "None" →
  match due_at t with
  | None => True
  | Some s => s = "" ∨ fromisoformat s = None
  end →
  ∃ w', complete task_id mins w = Returned tt w'
        ∧ tasks w' =
            <[task_id := completed_row (Iso.isoformat_seconds (clock (ticks w))) t]>
              (tasks w)
        ∧ dom (tasks w') = dom (tasks w).
Proof.
  intros Hrow Hrec Hdue.
  assert (∀ w0, (if decide (recurrence t ≠ "None")
                 then recur_create t (recurrence t) else ret tt) w0
                = Returned tt w0) as Hspawn.
  { intros w0. destruct (decide _); [|done]. by apply recur_create_skips. }
  unfold complete, bind, fetch_task. rewrite Hrow. simpl.
  assert (dom (<[task_id := completed_row (Iso.isoformat_seconds (clock (ticks w))) t]>
                 (tasks w)) = dom (tasks w)) as Hdom.
  { rewrite dom_insert_L. apply subseteq_union_1_L, singleton_subseteq_l.
    by apply elem_of_dom_2 with t. }
  destruct mins as [m|]; [destruct (Qlt_le_dec 0 m)|]; simpl;
    rewrite Hspawn; eexists; (split; [reflexivity|]); simpl;
    rewrite (alter_present _ _ _ _ Hrow); done.
Qed.

(* =================================================================== *)
(** ** Spawning the next occurrence *)
(* =================================================================== *)

(** C4 (as amended).  For a task whose due date is present and parses to
    [d], and whose next due date [new] still exists in the calendar
    ([d] moved by the recurrence step is no later than 9999-12-31),
    [recur_create] returns normally and inserts exactly one row, under an
    id the table did not hold: title, description, category, priority and
    predicted minutes are the source's, the recurrence is the one passed in,
    the status is Pending, [created_at] is the time of the call,
    [completed_at] is NULL, and the due date is [d] plus one day for Daily
    and plus seven days for Weekly: the same time of day on the date whose
    ordinal is one, respectively seven, larger. *)
Theorem recur_create_spawns_successor
    (old : task) (type due : string) (d new : Cal.datetime) (w : World) :
  due_at old = Some due →
  due ≠ "" →
  fromisoformat due = Some d →
  Cal.datetime_ok d = true →
  Cal.add_days d (recur_delta type) = Some new →
  let id := Z.max (tasks_seq w) (max_rowid (tasks w)) + 1 in
  tasks w !! id = None
  ∧ recur_create old type w =
      Returned tt
        (mkWorld
           (<[id := successor_row old type
                      (Iso.isoformat_seconds (clock (ticks w)))
                      (Iso.isoformat new)]> (tasks w))
           id (work_sessions w) (work_sessions_seq w)
           (pom_task w) (pom_start_at w) (S (ticks w)))
  ∧ Cal.dt_time new = Cal.dt_time d
  ∧ (type = "Daily" →
     Cal.add_days d 1 = Some new
     ∧ Cal.toordinal (Cal.dt_date new) = Cal.toordinal (Cal.dt_date d) + 1)
  ∧ (type = "Weekly" →
     Cal.add_days d 7 = Some new
     ∧ Cal.toordinal (Cal.dt_date new) = Cal.toordinal (Cal.dt_date d) + 7).
Proof.
  intros Hdue Hne Hparse Hok Hadd id. split; [apply fresh_rowid|]. split.
  { unfold recur_create. rewrite Hdue.
    destruct due as [|c r]; [done|]. simpl. by rewrite Hparse, Hadd. }
  destruct (add_days_spec _ _ _ Hok Hadd) as (Hord & Htime & _).
  split; [done|]. split; intros ->; (split; [exact Hadd|exact Hord]).
Qed.

(* =================================================================== *)
(** ** Creating a task *)
(* =================================================================== *)

(** The row the [new_task] form inserts. *)
Lemma add_task_inserts (f : new_task_form) (w : World) :
  Text.truthy (Text.strip (f_title f)) = true →
  let id := Z.max (tasks_seq w) (max_rowid (tasks w)) + 1 in
  tasks w !! id = None
  ∧ add_task f w =
      Returned true
        (mkWorld
           (<[id := mkTask (Text.strip (f_title f))
                      (if Text.truthy (f_desc f) then Text.strip (f_desc f) else "")
                      (Text.strip (f_cat f)) (f_priority f) "Pending"
                      (Iso.isoformat_seconds (clock (ticks w)))
                      (Some (Iso.isoformat (Cal.combine (f_d f) (f_t f)))) None
                      (form_pred w (f_cat f)) (f_rec f)]> (tasks w))
           id (work_sessions w) (work_sessions_seq w)
           (pom_task w) (pom_start_at w) (S (ticks w))).
Proof.
  intros Htitle id. split; [apply fresh_rowid|].
  unfold add_task, bind, gets. simpl. by rewrite Htitle.
Qed.

Lemma add_task_refuses (f : new_task_form) (w : World) :
  Text.truthy (Text.strip (f_title f)) = false →
  add_task f w = Returned false w.
Proof.
  intros Htitle. unfold add_task, bind, gets. simpl. by rewrite Htitle.
Qed.

Lemma form_pred_blank (w : World) (cat : string) :
  form_pred w cat = if Text.blank cat then 30%Q else predict_time w cat.
Proof.
  unfold form_pred. rewrite strip_truthy. by destruct (Text.blank cat).
Qed.

(** C10.  The form asks the estimator only for a category that is not
    blank; for an empty or white-space-only category the stored estimate
    is the constant 30, whatever the session history, and the task is
    stored with the empty category. *)
Theorem blank_category_gets_30 (f : new_task_form) (w : World) :
  Text.blank (f_cat f) = true →
  Text.truthy (Text.strip (f_title f)) = true →
  form_pred w (f_cat f) = 30%Q
  ∧ (∀ c, form_pred w c = if Text.blank c then 30%Q else predict_time w c)
  ∧ ∃ id t,
      tasks w !! id = None
      ∧ tasks (world_after (add_task f w)) = <[id := t]> (tasks w)
      ∧ category t = ""
      ∧ predicted_minutes t = 30%Q.
Proof.
  intros Hblank Htitle.
  assert (form_pred w (f_cat f) = 30%Q) as Hpred
    by by rewrite form_pred_blank, Hblank.
  split; [done|]. split; [apply form_pred_blank|].
  destruct (add_task_inserts f w Htitle) as [Hfresh Hrun].
  eexists _, _. split; [exact Hfresh|]. rewrite Hrun. simpl.
  split; [reflexivity|]. simpl. split; [by apply strip_blank|done].
Qed.

(* =================================================================== *)
(** ** The tasks table along a run *)
(* =================================================================== *)

Lemma tasks_evolve_refl (m : gmap Z task) : tasks_evolve m m.
Proof. intros id. destruct (m !! id); auto. Qed.

Lemma tasks_evolve_insert_fresh (m m' : gmap Z task) id t :
  tasks_evolve m m' → m' !! id = None →
  status t = "Pending" → completed_at t = None →
  tasks_evolve m (<[id := t]> m').
Proof.
  intros Hev Hfresh Hst Hat j. specialize (Hev j).
  destruct (decide (id = j)) as [->|Hne].
  - rewrite lookup_insert_eq. rewrite Hfresh in Hev.
    destruct (m !! j); [done|auto].
  - by rewrite lookup_insert_ne.
Qed.

Lemma tasks_evolve_complete (m : gmap Z task) id t at_ :
  m !! id = Some t → tasks_evolve m (<[id := completed_row at_ t]> m).
Proof.
  intros Hrow j. destruct (decide (id = j)) as [->|Hne].
  - rewrite lookup_insert_eq, Hrow. eauto.
  - rewrite lookup_insert_ne by done. destruct (m !! j); auto.
Qed.

Lemma recur_create_tasks (old : task) (type : string) (w : World) :
  let w' := world_after (recur_create old type w) in
  tasks w' = tasks w
  ∨ ∃ id succ, tasks w !! id = None ∧ status succ = "Pending"
               ∧ completed_at succ = None ∧ tasks w' = <[id := succ]> (tasks w).
Proof.
  unfold recur_create. destruct (due_at old) as [due|]; [|by left].
  destruct (Text.truthy due); simpl; [|by left].
  destruct (fromisoformat due) as [d|]; [|by left].
  destruct (Cal.add_days d (recur_delta type)) as [new|]; [|by left].
  right. exists (Z.max (tasks_seq w) (max_rowid (tasks w)) + 1).
  exists (successor_row old type (Iso.isoformat_seconds (clock (ticks w)))
            (Iso.isoformat new)).
  split; [apply fresh_rowid|done].
Qed.

Lemma recur_create_rest (old : task) (type : string) (w : World) :
  let w' := world_after (recur_create old type w) in
  work_sessions w' = work_sessions w
  ∧ pom_task w' = pom_task w ∧ pom_start_at w' = pom_start_at w.
Proof.
  unfold recur_create. destruct (due_at old) as [due|]; [|done].
  destruct (Text.truthy due); simpl; [|done].
  destruct (fromisoformat due) as [d|]; [|done].
  by destruct (Cal.add_days d (recur_delta type)).
Qed.

Lemma world_after_bind {A B} (m : M A) (k : A → M B) (w : World) :
  world_after (bind m k w) =
    match m w with
    | Returned a w' => world_after (k a w')
    | Raised _ w' => w'
    end.
Proof. unfold bind. by destruct (m w). Qed.

Lemma complete_tasks (task_id : Z) (mins : option Q) (w : World) :
  tasks_evolve (tasks w) (tasks (world_after (complete task_id mins w))).
Proof.
  unfold complete. rewrite world_after_bind. unfold fetch_task.
  destruct (tasks w !! task_id) as [row|] eqn:Hrow; [|apply tasks_evolve_refl].
  set (at_ := Iso.isoformat_seconds (clock (ticks w))).
  set (m1 := <[task_id := completed_row at_ row]> (tasks w)).
  assert (tasks_evolve (tasks w) m1) as Hev by by apply tasks_evolve_complete.
  assert (∀ w1, tasks w1 = m1 →
            tasks_evolve (tasks w)
              (tasks (world_after
                 ((if decide (recurrence row ≠ "None")
                   then recur_create row (recurrence row) else ret tt) w1)))) as Hspawn.
  { intros w1 Hw1. destruct (decide _); [|by simpl; rewrite Hw1].
    destruct (recur_create_tasks row (recurrence row) w1)
      as [->|(id & succ & Hfresh & Hst & Hat & ->)]; rewrite Hw1 in *; [done|].
    by apply tasks_evolve_insert_fresh. }
  unfold bind, now_iso, now, ret, mark_completed, modify; simpl.
  destruct mins as [m|]; [destruct (Qlt_le_dec 0 m)|]; simpl;
    apply Hspawn; simpl; by rewrite (alter_present _ _ _ _ Hrow).
Qed.

Lemma add_task_tasks (f : new_task_form) (w : World) :
  tasks_evolve (tasks w) (tasks (world_after (add_task f w))).
Proof.
  destruct (Text.truthy (Text.strip (f_title f))) eqn:Htitle.
  - destruct (add_task_inserts f w Htitle) as [Hfresh ->]. simpl.
    by apply tasks_evolve_insert_fresh; [apply tasks_evolve_refl|..].
  - rewrite add_task_refuses by done. apply tasks_evolve_refl.
Qed.

Lemma pom_stop_tasks (save : bool) (w : World) :
  tasks (world_after (pom_stop save w)) = tasks w.
Proof.
  unfold pom_stop, bind, gets, modify. simpl.
  destruct save, (id_truthy (pom_task w)), (start_truthy (pom_start_at w));
    simpl; try done.
  by destruct (fromisoformat s).
Qed.

Lemma step_tasks_evolve (w w' : World) :
  step w w' → tasks_evolve (tasks w) (tasks w').
Proof.
  destruct 1.
  - apply add_task_tasks.
  - apply complete_tasks.
  - apply tasks_evolve_refl.
  - rewrite pom_stop_tasks. apply tasks_evolve_refl.
Qed.

Lemma completed_row_wf (at_ : string) (t : task) : task_wf (completed_row at_ t).
Proof. split; [by right|]. simpl. split; eauto. Qed.

Lemma tasks_evolve_wf (m m' : gmap Z task) :
  tasks_evolve m m' →
  (∀ id t, m !! id = Some t → task_wf t) →
  ∀ id t, m' !! id = Some t → task_wf t.
Proof.
  intros Hev Hwf id t' Ht'. specialize (Hev id). rewrite Ht' in Hev.
  destruct (m !! id) as [t|] eqn:Ht.
  - destruct Hev as [->|[at_ ->]]; [eauto|apply completed_row_wf].
  - destruct Hev as [Hst Hat]. split; [by left|].
    rewrite Hat, Hst. split; [by intros [? ?]|done].
Qed.

Lemma tasks_evolve_terminal (m m' : gmap Z task) id t :
  tasks_evolve m m' → m !! id = Some t → status t = "Completed" →
  ∃ t', m' !! id = Some t' ∧ status t' = "Completed".
Proof.
  intros Hev Ht Hst. specialize (Hev id). rewrite Ht in Hev.
  destruct (m' !! id) as [t'|]; [|done].
  exists t'. split; [done|]. by destruct Hev as [->|[at_ ->]].
Qed.

Lemma reachable_tasks_wf (w : World) :
  reachable w → ∀ id t, tasks w !! id = Some t → task_wf t.
Proof.
  unfold reachable. revert w.
  apply (rtc_ind_r (λ w, ∀ id t, tasks w !! id = Some t → task_wf t)).
  - intros id t. simpl. by rewrite lookup_empty.
  - eauto using tasks_evolve_wf, step_tasks_evolve.
Qed.

(** C8.  In every world the engine can reach, each task row has status
    Pending or Completed (never both), and its completion time is set
    exactly when the status is Completed.  A row, once Completed, is
    Completed in every later world, so a task moves to Completed at most
    once; and a row that appears is Pending. *)
Theorem task_status_invariant (w : World) :
  reachable w →
  (∀ id t, tasks w !! id = Some t →
     (status t = "Pending" ∨ status t = "Completed")
     ∧ ¬ (status t = "Pending" ∧ status t = "Completed")
     ∧ (is_Some (completed_at t) ↔ status t = "Completed"))
  ∧ (∀ w' id t, rtc step w w' → tasks w !! id = Some t → status t = "Completed" →
       ∃ t', tasks w' !! id = Some t' ∧ status t' = "Completed")
  ∧ (∀ w' id t', step w w' → tasks w !! id = None → tasks w' !! id = Some t' →
       status t' = "Pending").
Proof.
  intros Hreach. split; [|split].
  - intros id t Ht. destruct (reachable_tasks_wf w Hreach id t Ht) as [Hst Hat].
    split; [done|]. split; [|done]. intros [H1 H2]. congruence.
  - intros w' id t Hrun. revert t. induction Hrun as [w0|w0 w1 w2 Hstep _ IH].
    + eauto.
    + intros t Ht Hst.
      destruct (tasks_evolve_terminal _ _ id t (step_tasks_evolve _ _ Hstep) Ht Hst)
        as (t1 & Ht1 & Hst1).
      apply (IH (rtc_r _ _ _ Hreach Hstep) t1 Ht1 Hst1).
  - intros w' id t' Hstep Hnone Ht'.
    pose proof (step_tasks_evolve _ _ Hstep id) as Hev.
    rewrite Hnone, Ht' in Hev. tauto.
Qed.

(* =================================================================== *)
(** ** Predicting the time of a task *)
(* =================================================================== *)

Lemma elem_of_group_keys {K R} `{EqDecision K} (le : relation K) `{!RelDecision le}
    (key : R → option K) (rows : list R) (k : K) :
  k ∈ merge_sort le (remove_dups (omap key rows)) ↔ ∃ r, r ∈ rows ∧ key r = Some k.
Proof. by rewrite merge_sort_Permutation, elem_of_remove_dups, list_elem_of_omap. Qed.

Lemma NoDup_group_keys {K R} `{EqDecision K} (le : relation K) `{!RelDecision le}
    (key : R → option K) (rows : list R) :
  NoDup (merge_sort le (remove_dups (omap key rows))).
Proof. rewrite merge_sort_Permutation. apply NoDup_remove_dups. Qed.

(** The category column of the join is the category of the owning task. *)
Lemma get_sessions_category (w : World) (s : work_session) :
  sr_category
    (match tasks w !! task_id s with
     | Some t => mkRow s (Some (title t)) (Some (category t))
     | None => mkRow s None None
     end) = owner_category w s.
Proof. unfold owner_category. by destruct (tasks w !! task_id s). Qed.

Lemma get_sessions_session (w : World) (s : work_session) :
  sr_session
    (match tasks w !! task_id s with
     | Some t => mkRow s (Some (title t)) (Some (category t))
     | None => mkRow s None None
     end) = s.
Proof. by destruct (tasks w !! task_id s). Qed.

Lemma get_sessions_group (w : World) (c : string) :
  duration_minutes ∘ sr_session
    <$> filter (λ r, sr_category r = Some c) (get_sessions w)
  = durations_of w c.
Proof.
  unfold durations_of, get_sessions.
  induction (work_sessions w) as [|s l IH]; [done|].
  rewrite fmap_cons, !filter_cons, get_sessions_category.
  destruct (decide (owner_category w s = Some c)); [|done].
  rewrite !fmap_cons, IH. simpl. by rewrite get_sessions_session.
Qed.

Lemma get_sessions_categories (w : World) (c : string) :
  (∃ r, r ∈ get_sessions w ∧ sr_category r = Some c) ↔ durations_of w c ≠ [].
Proof.
  unfold durations_of, get_sessions. split.
  - intros (r & [s [-> Hs]]%list_elem_of_fmap & Hc).
    rewrite get_sessions_category in Hc.
    assert (s ∈ filter (λ s, owner_category w s = Some c) (work_sessions w)) as Hin
      by by apply list_elem_of_filter.
    intros Hnil%fmap_nil_inv. rewrite Hnil in Hin. by apply not_elem_of_nil in Hin.
  - intros Hne.
    destruct (filter _ (work_sessions w)) as [|s l] eqn:E; [done|].
    assert (s ∈ filter (λ s, owner_category w s = Some c) (work_sessions w)) as Hin
      by (rewrite E; left).
    apply list_elem_of_filter in Hin as [Hc Hin].
    eexists. split; [by apply list_elem_of_fmap_2|]. by rewrite get_sessions_category.
Qed.

(** The categories that have history, in the order of the dict. *)
Lemma avg_time_category_eq (w : World) :
  avg_time_category w =
    (λ k, (k, category_mean w k))
      <$> merge_sort str_le (remove_dups (omap sr_category (get_sessions w))).
Proof.
  unfold avg_time_category, groupby, category_mean.
  destruct (get_sessions w) as [|r df] eqn:E; [done|]. rewrite <- E.
  rewrite <- list_fmap_compose. apply list_fmap_ext. intros _ k _. simpl.
  by rewrite get_sessions_group.
Qed.

Lemma dict_get_fmap {V} (f : string → V) (ks : list string) (c : string) :
  dict_get c ((λ k, (k, f k)) <$> ks) = if decide (c ∈ ks) then Some (f c) else None.
Proof.
  induction ks as [|k ks IH].
  - by rewrite decide_False by apply not_elem_of_nil.
  - rewrite fmap_cons. cbn [dict_get]. destruct (decide (c = k)) as [->|Hne].
    + by rewrite decide_True by left.
    + rewrite IH. destruct (decide (c ∈ ks)).
      * by rewrite decide_True by by right.
      * rewrite decide_False; [done|]. by intros [?|?]%elem_of_cons.
Qed.



Lemma str_le_total : Total str_le.
Proof.
  intros a b. unfold str_le.
  destruct (String.leb_total a b) as [->| ->]; [by left|by right].
Qed.


(** [predict_time] over the list of categories that have history, in
    ascending order. *)
Lemma predict_time_unfold (w : World) (c : string) :
  ∃ ks : list string,
    NoDup ks ∧ Sorted str_le ks
    ∧ (∀ k, k ∈ ks ↔ durations_of w k ≠ [])
    ∧ predict_time w c =
        if decide (c ∈ ks) then Flt.py_round1 (category_mean w c)
        else match ks with
             | [] => 30%Q
             | _ => Flt.py_round1 (Flt.series_mean (category_mean w <$> ks))
             end.
Proof.
  exists (merge_sort str_le (remove_dups (omap sr_category (get_sessions w)))).
  split; [apply NoDup_group_keys|].
  split; [apply (@Sorted_merge_sort _ str_le _ str_le_total)|].
  split; [intros k; by rewrite elem_of_group_keys, get_sessions_categories|].
  unfold predict_time. rewrite avg_time_category_eq, dict_get_fmap.
  destruct (decide _); [done|].
  generalize (merge_sort str_le (remove_dups (omap sr_category (get_sessions w)))).
  intros [|k ks]; [done|]. by rewrite <- list_fmap_compose.
Qed.

Lemma predict_time_known (w : World) (c : string) :
  durations_of w c ≠ [] →
  predict_time w c = Flt.py_round1 (Flt.group_mean (durations_of w c)).
Proof.
  intros Hc. destruct (predict_time_unfold w c) as (ks & _ & _ & Hks & ->).
  by rewrite decide_True by by apply Hks.
Qed.


Lemma predict_time_default (w : World) (c : string) :
  (∀ k, durations_of w k = []) → predict_time w c = 30%Q.
Proof.
  intros Hnone. destruct (predict_time_unfold w c) as (ks & _ & _ & Hks & ->).
  rewrite decide_False by (rewrite Hks; auto).
  destruct ks as [|k ks']; [done|].
  exfalso. apply (Hks k); [left|apply Hnone].
Qed.


(* =================================================================== *)
(** ** Stopping the timer *)
(* =================================================================== *)

Lemma pom_stop_clears (save : bool) (w : World) :
  pom_task (world_after (pom_stop save w)) = None
  ∧ pom_start_at (world_after (pom_stop save w)) = None.
Proof.
  unfold pom_stop, bind, gets, modify. simpl.
  destruct save, (id_truthy (pom_task w)), (start_truthy (pom_start_at w));
    simpl; try done.
  by destruct (fromisoformat s).
Qed.

Lemma pom_stop_inactive (save : bool) (w : World) :
  timer_active w = false → pom_stop save w = Returned tt (timer_cleared w).
Proof.
  unfold timer_active, pom_stop, bind, gets, modify. simpl.
  destruct save, (id_truthy (pom_task w)), (start_truthy (pom_start_at w)); done.
Qed.

Lemma pom_stop_discards (w : World) :
  pom_stop false w = Returned tt (timer_cleared w).
Proof. reflexivity. Qed.

Lemma pom_stop_saves (w : World) (id : Z) (start : string) (s : Cal.datetime) :
  id_truthy (pom_task w) = Some id →
  start_truthy (pom_start_at w) = Some start →
  fromisoformat start = Some s →
  pom_stop true w =
    Returned tt
      (mkWorld (tasks w) (tasks_seq w)
         (work_sessions w ++
            [mkSession (Z.max (work_sessions_seq w) (max_session_id (work_sessions w)) + 1)
               id start (Iso.isoformat_seconds (clock (ticks w)))
               (Num.py_max 1
                  (Flt.div (Flt.rnd (Cal.total_seconds (clock (ticks w)) s)) 60))])
         (Z.max (work_sessions_seq w) (max_session_id (work_sessions w)) + 1)
         None None (S (ticks w))).
Proof.
  intros Hid Hstart Hparse. unfold pom_stop, bind, gets, modify. simpl.
  by rewrite Hid, Hstart, Hparse.
Qed.

(** The one-minute floor: up to sixty seconds on the clock count as one
    minute. *)
Lemma py_max_floor (e s : Cal.datetime) :
  Cal.to_micro e - Cal.to_micro s ≤ 60000000 →
  Num.py_max 1 (Flt.div (Flt.rnd (Cal.total_seconds e s)) 60) = 1%Q.
Proof.
  intros Hle. unfold Num.py_max.
  destruct (Qle_bool _ 1) eqn:E; [done|].
  exfalso. apply not_true_iff_false in E. apply E, Qle_bool_iff.
  assert (Flt.rnd (Cal.total_seconds e s) <= inject_Z 60)%Q as Hsec.
  { apply rnd_le_int; [done|]. unfold Cal.total_seconds, Qle. simpl. lia. }
  apply (rnd_le_int _ 1); [done|].
  change (inject_Z 60) with 60%Q in Hsec. change (inject_Z 1) with 1%Q.
  apply Qle_shift_div_r; [done|]. lra.
Qed.

Lemma py_max_ge_1 (x : Q) : (1 <= Num.py_max 1 x)%Q.
Proof.
  unfold Num.py_max. destruct (Qle_bool x 1) eqn:E; [apply Qle_refl|].
  apply Qlt_le_weak, Qnot_le_lt. intros H%Qle_bool_iff. congruence.
Qed.

(* =================================================================== *)
(** ** The session log and the timer along a run *)
(* =================================================================== *)

Lemma add_task_rest (f : new_task_form) (w : World) :
  let w' := world_after (add_task f w) in
  work_sessions w' = work_sessions w
  ∧ pom_task w' = pom_task w ∧ pom_start_at w' = pom_start_at w.
Proof.
  destruct (Text.truthy (Text.strip (f_title f))) eqn:Htitle.
  - by destruct (add_task_inserts f w Htitle) as [_ ->].
  - by rewrite add_task_refuses.
Qed.

(** [complete] appends at most one session: the minutes passed in, when
    they are positive, stamped with the time of the call. *)
Lemma complete_sessions (task_id : Z) (mins : option Q) (w : World) :
  let w' := world_after (complete task_id mins w) in
  pom_task w' = pom_task w ∧ pom_start_at w' = pom_start_at w
  ∧ (work_sessions w' = work_sessions w
     ∨ ∃ sid k stop m,
         mins = Some m ∧ (0 < m)%Q ∧ is_Some (tasks w !! task_id)
         ∧ work_sessions w' =
             (work_sessions w
                ++ [mkSession sid task_id (Iso.isoformat_seconds (clock k)) stop m])%list).
Proof.
  cbv zeta. unfold complete. rewrite world_after_bind. unfold fetch_task.
  destruct (tasks w !! task_id) as [row|] eqn:Hrow; [|by auto].
  set (spawn := if decide (recurrence row ≠ "None")
                then recur_create row (recurrence row) else ret tt).
  assert (∀ w1, work_sessions (world_after (spawn w1)) = work_sessions w1
                ∧ pom_task (world_after (spawn w1)) = pom_task w1
                ∧ pom_start_at (world_after (spawn w1)) = pom_start_at w1)
    as Hspawn.
  { intros w1. unfold spawn. destruct (decide _); [apply recur_create_rest|done]. }
  clearbody spawn.
  rewrite !world_after_bind. unfold now_iso, bind, now, ret, mark_completed, modify.
  destruct mins as [m|]; [destruct (Qlt_le_dec 0 m)|];
    cbn [world_after insert_session modify].
  all: match goal with
       | |- context [world_after (?f ?w1)] =>
           destruct (Hspawn w1) as (H1 & H2 & H3); revert H1 H2 H3;
           generalize (world_after (f w1)); intros wz H1 H2 H3
       end; cbn [work_sessions pom_task pom_start_at] in H1, H2, H3;
       rewrite H1, H2, H3.
  all: split; [reflexivity|]; split; [reflexivity|].
  - right. eexists _, _, _, m.
    split; [reflexivity|]. split; [assumption|]. split; [by eexists|reflexivity].
  - left. reflexivity.
  - left. reflexivity.
Qed.

Lemma start_truthy_Some (o : option string) (s : string) :
  start_truthy o = Some s → o = Some s.
Proof.
  unfold start_truthy. destruct o as [s'|]; [|done].
  destruct (Text.truthy s'); congruence.
Qed.

(** [pom_stop] appends at most one session: the recorded start of the
    timer with a duration of at least one minute. *)
Lemma pom_stop_sessions (save : bool) (w : World) :
  let w' := world_after (pom_stop save w) in
  work_sessions w' = work_sessions w
  ∨ ∃ sid id start stop m,
      save = true ∧ pom_start_at w = Some start ∧ (1 <= m)%Q
      ∧ work_sessions w' = (work_sessions w ++ [mkSession sid id start stop m])%list.
Proof.
  destruct save; [|by left].
  destruct (id_truthy (pom_task w)) as [id|] eqn:Hid;
    [|left; rewrite pom_stop_inactive; [done|]; unfold timer_active; by rewrite Hid].
  destruct (start_truthy (pom_start_at w)) as [start|] eqn:Hstart;
    [|left; rewrite pom_stop_inactive; [done|]; unfold timer_active;
      by rewrite Hid, Hstart].
  destruct (fromisoformat start) as [s|] eqn:Hparse.
  - right. rewrite (pom_stop_saves w id start s) by done. simpl.
    eexists _, _, _, _, _. split; [done|].
    split; [by apply start_truthy_Some|]. split; [apply py_max_ge_1|done].
  - left. unfold pom_stop, bind, gets, modify. simpl.
    by rewrite Hid, Hstart, Hparse.
Qed.

Lemma clock_timestamp (k : nat) :
  clock_ok → timestamp (Iso.isoformat_seconds (clock k)).
Proof. intros Hclock. exists (clock k). auto. Qed.

(** In a reachable world every session starts at a timestamp and lasts a
    positive number of minutes, and a recorded timer start is a
    timestamp. *)
Lemma reachable_sessions_wf (w : World) :
  clock_ok → reachable w →
  (∀ s, s ∈ work_sessions w → timestamp (start_time s) ∧ (0 < duration_minutes s)%Q)
  ∧ (∀ s, pom_start_at w = Some s → timestamp s).
Proof.
  intros Hclock. unfold reachable. revert w.
  apply (rtc_ind_r (λ w,
    (∀ s, s ∈ work_sessions w → timestamp (start_time s) ∧ (0 < duration_minutes s)%Q)
    ∧ (∀ s, pom_start_at w = Some s → timestamp s))).
  { split; [by intros s ?%not_elem_of_nil|done]. }
  intros w1 w2 _ Hstep [IHs IHt]. destruct Hstep as [f w|id mins w|id w|save w].
  - destruct (add_task_rest f w) as (-> & _ & ->). auto.
  - destruct (complete_sessions id mins w)
      as (_ & -> & [->|(sid & k & stop & m & _ & Hm & _ & ->)]); [auto|].
    split; [|done]. intros s [?|Hs%list_elem_of_singleton]%elem_of_app; [auto|subst s].
    simpl. split; [by apply clock_timestamp|done].
  - cbn. split; [done|]. intros s [= <-]. by apply clock_timestamp.
  - destruct (pom_stop_clears save w) as [_ ->]. split; [|done].
    destruct (pom_stop_sessions save w)
      as [->|(sid & id & start & stop & m & _ & Hstart & Hm & ->)]; [auto|].
    intros s [?|Hs%list_elem_of_singleton]%elem_of_app; [auto|subst s].
    simpl. split; [auto|]. by apply Qlt_le_trans with 1%Q.
Qed.

Lemma py_max_Qmax (x : Q) : Num.py_max 1 x = Qmax 1 x.
Proof.
  unfold Num.py_max, Qmax, GenericMinMax.gmax.
  destruct (Qle_bool x 1) eqn:E.
  - apply Qle_bool_iff in E. destruct (1 ?= x)%Q eqn:C; try done.
    apply Qlt_alt in C. by apply Qlt_not_le in C.
  - destruct (1 ?= x)%Q eqn:C; try done.
    + apply Qeq_alt in C. assert (Qle_bool x 1 = true); [|congruence].
      apply Qle_bool_iff. rewrite <- C. apply Qle_refl.
    + apply Qgt_alt in C. assert (Qle_bool x 1 = true); [|congruence].
      apply Qle_bool_iff. by apply Qlt_le_weak.
Qed.

(** In a reachable world [pom_stop] returns normally: the recorded start
    was printed by [now_iso] and is read back. *)
Lemma pom_stop_returns (save : bool) (w : World) :
  clock_ok → reads_timestamps fromisoformat → reachable w →
  ∃ w', pom_stop save w = Returned tt w'.
Proof.
  intros Hclock Hparser Hreach.
  destruct (timer_active w) eqn:Hactive; [|rewrite pom_stop_inactive; eauto].
  destruct save; [|rewrite pom_stop_discards; eauto].
  unfold timer_active in Hactive.
  destruct (id_truthy (pom_task w)) as [id|] eqn:Hid; [|done].
  destruct (start_truthy (pom_start_at w)) as [start|] eqn:Hstart; [|done].
  destruct (reachable_sessions_wf w Hclock Hreach) as [_ Htimer].
  destruct (Htimer start (start_truthy_Some _ _ Hstart)) as (d & Hd & ->).
  rewrite (pom_stop_saves w id _ _ Hid Hstart (Hparser d Hd)). eauto.
Qed.

(** C7.  [pom_stop] always leaves Timer State cleared.  With no timer
    active (the test [id and start] fails) nothing else changes, and with
    no timer recorded at all the call changes nothing.  With [save] false
    no session is created.  With [save] true and a timer active whose
    recorded start reads as the datetime [s], exactly one session is
    appended: its task is the timer's, its start is the recorded start,
    its end is the time of the call and its duration is
    [max(1, elapsed minutes)], the minutes being the elapsed seconds as a
    double divided by 60, which is 1 for every timer that ran for at most
    a minute (so also for 0 seconds).  In every reachable world the
    call returns normally. *)
Theorem pom_stop_spec (save : bool) (w : World) :
  (pom_task (world_after (pom_stop save w)) = None
   ∧ pom_start_at (world_after (pom_stop save w)) = None)
  ∧ (timer_active w = false → pom_stop save w = Returned tt (timer_cleared w))
  ∧ (pom_task w = None → pom_start_at w = None → pom_stop save w = Returned tt w)
  ∧ (save = false → pom_stop save w = Returned tt (timer_cleared w))
  ∧ (∀ id start s,
       save = true →
       id_truthy (pom_task w) = Some id →
       start_truthy (pom_start_at w) = Some start →
       fromisoformat start = Some s →
       let e := clock (ticks w) in
       let mins := Qmax 1 (Flt.div (Flt.rnd (Cal.total_seconds e s)) 60) in
       let sid := Z.max (work_sessions_seq w) (max_session_id (work_sessions w)) + 1 in
       pom_stop save w =
         Returned tt
           (mkWorld (tasks w) (tasks_seq w)
              (work_sessions w
                 ++ [mkSession sid id start (Iso.isoformat_seconds e) mins])
              sid None None (S (ticks w)))
       ∧ (Cal.to_micro e - Cal.to_micro s ≤ 60000000 → mins = 1%Q))
  ∧ (clock_ok → reads_timestamps fromisoformat → reachable w →
     ∃ w', pom_stop save w = Returned tt w').
Proof.
  split; [apply pom_stop_clears|].
  split; [apply pom_stop_inactive|].
  split.
  { intros Hid Hstart. rewrite pom_stop_inactive.
    - destruct w; simpl in *; by subst.
    - unfold timer_active. by rewrite Hid. }
  split; [intros ->; apply pom_stop_discards|].
  split; [|apply pom_stop_returns].
  intros id start s -> Hid Hstart Hparse e mins sid. subst e mins sid.
  rewrite <- py_max_Qmax. split; [by apply pom_stop_saves|apply py_max_floor].
Qed.

(* =================================================================== *)
(** ** Daily scores *)
(* =================================================================== *)

Lemma date_leb_spec (a b : Cal.date) :
  Cal.date_leb a b = true ↔
  Cal.year a < Cal.year b
  ∨ (Cal.year a = Cal.year b
     ∧ (Cal.month a < Cal.month b
        ∨ (Cal.month a = Cal.month b ∧ Cal.day a ≤ Cal.day b))).
Proof.
  unfold Cal.date_leb.
  rewrite !orb_true_iff, !andb_true_iff, !orb_true_iff, !andb_true_iff.
  rewrite !Z.ltb_lt, !Z.eqb_eq, Z.leb_le. tauto.
Qed.



Lemma date_le_total : Total date_le.
Proof.
  intros a b. unfold date_le. rewrite !Is_true_true, !date_leb_spec. lia.
Qed.



Lemma minutes_on_nonneg (w : World) (d : Cal.date) :
  (∀ s, s ∈ work_sessions w → (0 < duration_minutes s)%Q) →
  (0 <= minutes_on w d)%Q.
Proof.
  intros Hpos. apply sum_nonneg, Forall_forall.
  intros q (s & -> & [_ Hs]%list_elem_of_filter)%list_elem_of_fmap.
  apply Qlt_le_weak. auto.
Qed.



(* =================================================================== *)
(** ** Creation, logging and prediction together *)
(* =================================================================== *)

(** Completing an existing task with positive minutes logs them. *)
Lemma complete_logs (task_id : Z) (m : Q) (w : World) :
  is_Some (tasks w !! task_id) → (0 < m)%Q →
  ∃ sid start stop,
    work_sessions (world_after (complete task_id (Some m) w)) =
      (work_sessions w ++ [mkSession sid task_id start stop m])%list.
Proof.
  intros [row Hrow] Hm. unfold complete. rewrite world_after_bind.
  unfold fetch_task. rewrite Hrow.
  set (spawn := if decide (recurrence row ≠ "None")
                then recur_create row (recurrence row) else ret tt).
  assert (∀ w1, work_sessions (world_after (spawn w1)) = work_sessions w1) as Hspawn.
  { intros w1. unfold spawn. destruct (decide _); [apply recur_create_rest|done]. }
  clearbody spawn.
  rewrite !world_after_bind. unfold now_iso, bind, now, ret, mark_completed, modify.
  destruct (Qlt_le_dec 0 m) as [_|Hle]; [|by apply Qle_not_lt in Hle].
  cbn [world_after insert_session modify]. rewrite Hspawn.
  cbn [work_sessions]. eauto.
Qed.

Lemma predict_time_no_sessions (w : World) (c : string) :
  work_sessions w = [] → predict_time w c = 30%Q.
Proof.
  intros Hnil. apply predict_time_default. intros k.
  unfold durations_of. by rewrite Hnil.
Qed.

(** C9.  In a store with no sessions, the task the form creates for the
    category "Writing" is stored with an estimate of 30; once that task is
    completed with 60 logged minutes, the estimate for "Writing" is 60. *)
Theorem writing_round_trip (f : new_task_form) (w : World) :
  work_sessions w = [] →
  f_cat f = "Writing" →
  Text.truthy (Text.strip (f_title f)) = true →
  ∃ id t,
    tasks w !! id = None
    ∧ tasks (world_after (add_task f w)) = <[id := t]> (tasks w)
    ∧ category t = "Writing"
    ∧ predicted_minutes t = 30%Q
    ∧ predict_time
        (world_after (complete id (Some 60%Q) (world_after (add_task f w))))
        "Writing" = 60%Q.
Proof.
  intros Hnil Hcat Htitle.
  destruct (add_task_inserts f w Htitle) as [Hfresh Hrun].
  eexists _, _. split; [exact Hfresh|]. rewrite Hrun. cbn [world_after tasks].
  split; [reflexivity|]. cbn [category predicted_minutes]. rewrite Hcat.
  split; [reflexivity|].
  split; [unfold form_pred; cbn; by apply predict_time_no_sessions|].
  set (id := Z.max (tasks_seq w) (max_rowid (tasks w)) + 1).
  match goal with |- context [complete id _ ?x] => set (w1 := x) end.
  assert (tasks w1 !! id = Some (mkTask (Text.strip (f_title f))
            (if Text.truthy (f_desc f) then Text.strip (f_desc f) else "")
            "Writing" (f_priority f) "Pending"
            (Iso.isoformat_seconds (clock (ticks w)))
            (Some (Iso.isoformat (Cal.combine (f_d f) (f_t f)))) None
            (form_pred w "Writing") (f_rec f))) as Hrow
    by apply lookup_insert_eq.
  destruct (complete_logs id 60 w1) as (sid & start & stop & Hlog); [by eexists|done|].
  pose proof (complete_tasks id (Some 60%Q) w1 id) as Hev. rewrite Hrow in Hev.
  set (w2 := world_after (complete id (Some 60%Q) w1)) in *.
  destruct (tasks w2 !! id) as [t'|] eqn:Ht'; [|done].
  assert (category t' = "Writing") as Hcat' by by destruct Hev as [->|[at_ ->]].
  assert (durations_of w2 "Writing" = [60%Q]) as Hdur.
  { unfold durations_of. rewrite Hlog. subst w1. cbn [work_sessions]. rewrite Hnil.
    rewrite app_nil_l, filter_cons, filter_nil.
    rewrite decide_True; [done|].
    unfold owner_category. cbn [task_id]. rewrite Ht'. cbn. by rewrite Hcat'. }
  rewrite predict_time_known by by rewrite Hdur. by rewrite Hdur.
Qed.

(* =================================================================== *)
(** ** What a run never undoes *)
(* =================================================================== *)

Lemma step_sessions_prefix (w w' : World) :
  step w w' → work_sessions w `prefix_of` work_sessions w'.
Proof.
  destruct 1 as [f w|id mins w|id w|save w].
  - by destruct (add_task_rest f w) as (-> & _).
  - destruct (complete_sessions id mins w)
      as (_ & _ & [->|(sid & k & stop & m & _ & _ & _ & ->)]); [done|].
    by apply prefix_app_r.
  - done.
  - destruct (pom_stop_sessions save w)
      as [->|(sid & id & start & stop & m & _ & _ & _ & ->)]; [done|].
    by apply prefix_app_r.
Qed.

(** X1.  The session log is append-only: whatever calls are made, the
    sessions of the earlier world are the first sessions of the later one,
    unchanged and in the same order. *)
Theorem sessions_append_only (w w' : World) :
  rtc step w w' → work_sessions w `prefix_of` work_sessions w'.
Proof.
  induction 1 as [w|w w1 w2 Hstep _ IH]; [done|].
  etrans; [by apply step_sessions_prefix|done].
Qed.

Lemma tasks_evolve_fixed (m m' : gmap Z task) (id : Z) (t : task) :
  tasks_evolve m m' → m !! id = Some t →
  ∃ t', m' !! id = Some t' ∧ same_fixed_columns t t'.
Proof.
  intros Hev Ht. specialize (Hev id). rewrite Ht in Hev.
  destruct (m' !! id) as [t'|]; [|done]. exists t'. split; [done|].
  by destruct Hev as [->|[at_ ->]].
Qed.

(** X2.  No call deletes a task or rewrites its title, description,
    category, priority, creation time, due date, predicted minutes or
    recurrence: a row that exists keeps these columns in every later
    world (only status and completion time are ever updated). *)
Theorem task_columns_immutable (w w' : World) (id : Z) (t : task) :
  rtc step w w' → tasks w !! id = Some t →
  ∃ t', tasks w' !! id = Some t' ∧ same_fixed_columns t t'.
Proof.
  intros Hrun. revert t. induction Hrun as [w|w w1 w2 Hstep _ IH]; intros t Ht.
  { exists t. by split. }
  destruct (tasks_evolve_fixed _ _ id t (step_tasks_evolve _ _ Hstep) Ht)
    as (t1 & Ht1 & H1).
  destruct (IH t1 Ht1) as (t2 & Ht2 & H2). exists t2. split; [done|].
  destruct H1 as (? & ? & ? & ? & ? & ? & ? & ?).
  destruct H2 as (? & ? & ? & ? & ? & ? & ? & ?).
  repeat split; congruence.
Qed.

(* =================================================================== *)
(** ** The phases of [complete] *)
(* =================================================================== *)

(** [complete] on an existing row: UPDATE, optional INSERT of the minutes,
    then the spawn of the next occurrence, in that order. *)
Lemma complete_unfold (task_id : Z) (mins : option Q) (w : World) (t : task) :
  tasks w !! task_id = Some t →
  complete task_id mins w =
    (if decide (recurrence t ≠ "None")
     then recur_create t (recurrence t) else ret tt)
      (after_log (after_mark w task_id t) task_id mins).
Proof.
  intros Hrow. unfold complete, bind, fetch_task. rewrite Hrow.
  unfold now_iso, bind, now, ret, mark_completed, modify, after_log, after_mark.
  cbn [tasks tasks_seq work_sessions work_sessions_seq pom_task pom_start_at ticks].
  rewrite (alter_present _ _ _ _ Hrow).
  destruct mins as [m|]; [destruct (Qlt_le_dec 0 m)|]; reflexivity.
Qed.

Lemma spawn_rest (t : task) (w : World) :
  let w' := world_after
              ((if decide (recurrence t ≠ "None")
                then recur_create t (recurrence t) else ret tt) w) in
  work_sessions w' = work_sessions w
  ∧ work_sessions_seq w' = work_sessions_seq w
  ∧ pom_task w' = pom_task w ∧ pom_start_at w' = pom_start_at w.
Proof.
  cbv zeta. destruct (decide _); [|done].
  unfold recur_create. destruct (due_at t) as [due|]; [|done].
  destruct (Text.truthy due); simpl; [|done].
  destruct (fromisoformat due) as [d|]; [|done].
  by destruct (Cal.add_days d (recur_delta (recurrence t))).
Qed.

(** X3.  Completing an existing task logs time exactly when positive
    minutes are passed: the log then gains one session for that task with
    those minutes, stamped with two successive readings of the clock as its
    start and end; with no minutes, or minutes that are not positive, the
    log is unchanged.  The timer is never touched.  This holds however the
    call ends. *)
Theorem complete_logs_iff_positive (task_id : Z) (mins : option Q) (w : World) (t : task) :
  tasks w !! task_id = Some t →
  let w' := world_after (complete task_id mins w) in
  pom_task w' = pom_task w ∧ pom_start_at w' = pom_start_at w
  ∧ (∀ m, mins = Some m → (0 < m)%Q →
       work_sessions w' =
         (work_sessions w
            ++ [mkSession
                  (Z.max (work_sessions_seq w) (max_session_id (work_sessions w)) + 1)
                  task_id
                  (Iso.isoformat_seconds (clock (S (ticks w))))
                  (Iso.isoformat_seconds (clock (S (S (ticks w)))))
                  m])%list)
  ∧ (mins = None ∨ (∃ m, mins = Some m ∧ (m <= 0)%Q) →
       work_sessions w' = work_sessions w).
Proof.
  intros Hrow. cbv zeta. rewrite (complete_unfold _ _ _ _ Hrow).
  destruct (spawn_rest t (after_log (after_mark w task_id t) task_id mins))
    as (-> & _ & -> & ->).
  unfold after_log.
  destruct mins as [m|]; [destruct (Qlt_le_dec 0 m) as [Hpos|Hneg]|]; cbn.
  - split; [done|]. split; [done|]. split.
    + by intros m' [= <-] _.
    + intros [?|(m' & [= <-] & Hle)]; [done|]. by apply Qle_not_lt in Hle.
  - split; [done|]. split; [done|]. split; [|done].
    intros m' [= <-] Hpos. by apply Qle_not_lt in Hneg.
  - done.
Qed.

Lemma after_log_tasks (w : World) (id : Z) (mins : option Q) :
  tasks (after_log w id mins) = tasks w ∧ tasks_seq (after_log w id mins) = tasks_seq w.
Proof.
  unfold after_log. destruct mins as [m|]; [destruct (Qlt_le_dec 0 m)|]; done.
Qed.

Lemma spawn_outcome (t : task) (w : World) (e : exn) (w' : World) :
  (if decide (recurrence t ≠ "None")
   then recur_create t (recurrence t) else ret tt) w = Raised e w' →
  e = OverflowError ∧ w' = w ∧ recurrence t ≠ "None".
Proof.
  destruct (decide _) as [Hrec|]; [|done].
  unfold recur_create. destruct (due_at t) as [due|]; [|done].
  destruct (Text.truthy due); simpl; [|done].
  destruct (fromisoformat due) as [d|]; [|done].
  destruct (Cal.add_days d (recur_delta (recurrence t))); [done|].
  by intros [= <- <-].
Qed.

(** X4.  The ways [complete] can end on an existing task.  The row is
    left Completed, with the time of the call, however the call ends.  A
    task that does not recur completes normally and no task is created.
    The only exception possible is the overflow of the next due date, and
    it is raised after the completion and the logged minutes have been
    committed, with no successor created. *)
Theorem complete_outcomes (task_id : Z) (mins : option Q) (w : World) (t : task) :
  tasks w !! task_id = Some t →
  let w1 := after_log (after_mark w task_id t) task_id mins in
  tasks (world_after (complete task_id mins w)) !! task_id
    = Some (completed_row (Iso.isoformat_seconds (clock (ticks w))) t)
  ∧ (recurrence t = "None" → complete task_id mins w = Returned tt w1)
  ∧ (∀ e w', complete task_id mins w = Raised e w' →
       e = OverflowError ∧ w' = w1 ∧ recurrence t ≠ "None").
Proof.
  intros Hrow w1. rewrite (complete_unfold _ _ _ _ Hrow). fold w1.
  assert (tasks w1 !! task_id
          = Some (completed_row (Iso.isoformat_seconds (clock (ticks w))) t)) as Hdone.
  { unfold w1. rewrite (proj1 (after_log_tasks _ _ _)). apply lookup_insert_eq. }
  split; [|split].
  - destruct (decide _); [|done].
    destruct (recur_create_tasks t (recurrence t) w1)
      as [->|(id' & succ & Hfresh & _ & _ & ->)]; [done|].
    rewrite lookup_insert_ne; [done|]. intros ->. congruence.
  - intros Hnone. by rewrite decide_False by (by intros H).
  - apply spawn_outcome.
Qed.

(** X5.  Completing a recurring task whose due date parses and whose next
    due date exists returns normally and adds one task under a new id: the
    successor copies the columns the task had before it was completed, is
    Pending with no completion time, and is created after the completion
    and the logged minutes were written. *)
Theorem complete_spawns_successor
    (task_id : Z) (mins : option Q) (w : World) (t : task)
    (due : string) (d new : Cal.datetime) :
  tasks w !! task_id = Some t →
  recurrence t ≠ "None" →
  due_at t = Some due → due ≠ "" →
  fromisoformat due = Some d →
  Cal.add_days d (recur_delta (recurrence t)) = Some new →
  let w1 := after_log (after_mark w task_id t) task_id mins in
  let id := Z.max (tasks_seq w) (max_rowid (tasks w1)) + 1 in
  id ≠ task_id
  ∧ tasks w !! id = None
  ∧ complete task_id mins w =
      Returned tt
        (mkWorld
           (<[id := successor_row t (recurrence t)
                      (Iso.isoformat_seconds (clock (ticks w1)))
                      (Iso.isoformat new)]> (tasks w1))
           id (work_sessions w1) (work_sessions_seq w1)
           (pom_task w) (pom_start_at w) (S (ticks w1))).
Proof.
  intros Hrow Hrec Hdue Hne Hparse Hadd w1 id.
  destruct (after_log_tasks (after_mark w task_id t) task_id mins) as [Htasks Hseq].
  assert (tasks w1 !! id = None) as Hfresh.
  { unfold id. replace (tasks_seq w) with (tasks_seq w1) by done. apply fresh_rowid. }
  assert (id ≠ task_id) as Hid.
  { intros Heq. rewrite Heq in Hfresh. unfold w1 in Hfresh.
    rewrite Htasks in Hfresh. cbn in Hfresh. by rewrite lookup_insert_eq in Hfresh. }
  split; [done|]. split.
  { unfold w1 in Hfresh. rewrite Htasks in Hfresh. cbn in Hfresh.
    by rewrite lookup_insert_ne in Hfresh. }
  rewrite (complete_unfold _ _ _ _ Hrow). fold w1.
  rewrite decide_True by done.
  unfold recur_create. rewrite Hdue. destruct due as [|c r]; [done|]. simpl.
  rewrite Hparse, Hadd. unfold insert_task, now_iso, now, bind, ret, modify. cbn.
  assert (pom_task w1 = pom_task w ∧ pom_start_at w1 = pom_start_at w) as [-> ->].
  { unfold w1, after_log. destruct mins as [m|]; [destruct (Qlt_le_dec 0 m)|]; done. }
  replace (tasks_seq w1) with (tasks_seq w) by done. reflexivity.
Qed.

(* =================================================================== *)
(** ** A Pomodoro from start to stop *)
(* =================================================================== *)

Lemma timer_cleared_id (w : World) :
  pom_task w = None → pom_start_at w = None → timer_cleared w = w.
Proof. destruct w. cbn. by intros -> ->. Qed.

(** X6.  Stopping is idempotent: after any [pom_stop], a second
    [pom_stop], with or without save, returns normally and changes
    nothing, so one run of the timer is never saved twice. *)
Theorem pom_stop_idempotent (s1 s2 : bool) (w : World) :
  pom_stop s2 (world_after (pom_stop s1 w))
  = Returned tt (world_after (pom_stop s1 w)).
Proof.
  destruct (pom_stop_clears s1 w) as [Hid Hstart].
  rewrite pom_stop_inactive by (unfold timer_active; by rewrite Hid).
  by rewrite timer_cleared_id.
Qed.

Lemma isoformat_seconds_truthy (d : Cal.datetime) :
  Text.truthy (Iso.isoformat_seconds d) = true.
Proof. reflexivity. Qed.

(** X7.  A timer started on a task with a non-zero id and then stopped
    with save logs exactly one session for that task: it starts at the
    reading taken by [pom_start], to the second, ends at the reading taken
    by [pom_stop], and lasts the time between the two in minutes (the
    seconds as a double, divided by 60), but at least one minute.  Nothing
    else in the store changes and the timer is cleared. *)
Theorem pomodoro_start_stop (id : Z) (w : World) :
  id ≠ 0 →
  Cal.datetime_ok (clock (ticks w)) = true →
  reads_timestamps fromisoformat →
  let s := clock (ticks w) in
  let e := clock (S (ticks w)) in
  let sid := Z.max (work_sessions_seq w) (max_session_id (work_sessions w)) + 1 in
  pom_stop true (world_after (pom_start id w)) =
    Returned tt
      (mkWorld (tasks w) (tasks_seq w)
         (work_sessions w
            ++ [mkSession sid id (Iso.isoformat_seconds s) (Iso.isoformat_seconds e)
                  (Qmax 1 (Flt.div (Flt.rnd (Cal.total_seconds e (Cal.trunc_seconds s)))
                                   60))])
         sid None None (S (S (ticks w))))
  ∧ (1 <= Qmax 1 (Flt.div (Flt.rnd (Cal.total_seconds e (Cal.trunc_seconds s))) 60))%Q.
Proof.
  intros Hid Hok Hparser s e sid. rewrite <- py_max_Qmax.
  split; [|apply py_max_ge_1].
  rewrite (pom_stop_saves _ id (Iso.isoformat_seconds s) (Cal.trunc_seconds s)).
  - reflexivity.
  - cbn. destruct (id =? 0) eqn:E; [|done]. by apply Z.eqb_eq in E.
  - reflexivity.
  - by apply Hparser.
Qed.

(* =================================================================== *)
(** ** The two task lists *)
(* =================================================================== *)

(** X8.  In every reachable world the Pending list and the Completed list
    partition the tasks table: every row of the table is in exactly one of
    [get_pending] and [get_completed], and the lists hold nothing else. *)
Theorem pending_completed_partition (w : World) :
  reachable w →
  (∀ id t, tasks w !! id = Some t →
     ((id, t) ∈ get_pending w ∧ ¬ ((id, t) ∈ get_completed w))
     ∨ (¬ ((id, t) ∈ get_pending w) ∧ (id, t) ∈ get_completed w))
  ∧ (∀ id t, (id, t) ∈ get_pending w ∨ (id, t) ∈ get_completed w →
       tasks w !! id = Some t).
Proof.
  intros Hreach. unfold get_pending, get_completed. split.
  - intros id t Ht.
    destruct (reachable_tasks_wf w Hreach id t Ht) as [[Hst|Hst] _].
    + left. rewrite !list_elem_of_filter, elem_of_map_to_list. cbn.
      split; [done|]. intros [Hc _]. congruence.
    + right. rewrite !list_elem_of_filter, elem_of_map_to_list. cbn.
      split; [|done]. intros [Hp _]. congruence.
  - intros id t. rewrite !list_elem_of_filter, elem_of_map_to_list. tauto.
Qed.

(* =================================================================== *)
(** ** Where the rows of the tasks table come from *)
(* =================================================================== *)

Lemma complete_missing_row (task_id : Z) (mins : option Q) (w : World) :
  tasks w !! task_id = None → world_after (complete task_id mins w) = w.
Proof. intros Hnone. unfold complete, bind, fetch_task. by rewrite Hnone. Qed.

Lemma recur_create_row (old : task) (type : string) (w : World) :
  let w' := world_after (recur_create old type w) in
  tasks w' = tasks w
  ∨ ∃ created due,
      tasks w' =
        <[Z.max (tasks_seq w) (max_rowid (tasks w)) + 1
            := successor_row old type created due]> (tasks w).
Proof.
  unfold recur_create. destruct (due_at old) as [due|]; [|by left].
  destruct (Text.truthy due); simpl; [|by left].
  destruct (fromisoformat due) as [d|]; [|by left].
  destruct (Cal.add_days d (recur_delta type)) as [new|]; [|by left].
  right. by eexists _, _.
Qed.

(** A row that a call adds was written by the form or is the successor of
    a row the table held. *)
Lemma step_new_row (w w' : World) (id : Z) (t' : task) :
  step w w' → tasks w !! id = None → tasks w' !! id = Some t' →
  (∃ f, t' = form_row f w)
  ∨ (∃ id0 t0 created due,
       tasks w !! id0 = Some t0
       ∧ t' = successor_row t0 (recurrence t0) created due).
Proof.
  destruct 1 as [f w|task_id mins w|id1 w|save w]; intros Hnone Hnew.
  - destruct (Text.truthy (Text.strip (f_title f))) eqn:Htitle.
    + destruct (add_task_inserts f w Htitle) as [_ Hrun]. rewrite Hrun in Hnew.
      cbn in Hnew. apply lookup_insert_Some in Hnew as [[_ <-]|[_ Hold]]; [|congruence].
      left. by exists f.
    + rewrite add_task_refuses in Hnew by done. cbn in Hnew. congruence.
  - destruct (tasks w !! task_id) as [t|] eqn:Hrow.
    2:{ rewrite complete_missing_row in Hnew by done. cbn in Hnew. congruence. }
    rewrite (complete_unfold _ _ _ _ Hrow) in Hnew.
    assert (task_id ≠ id) as Hne by (intros ->; congruence).
    assert (tasks (after_log (after_mark w task_id t) task_id mins) !! id = None) as H1.
    { rewrite (proj1 (after_log_tasks _ _ _)). cbn. by rewrite lookup_insert_ne. }
    destruct (decide (recurrence t ≠ "None")); [|cbn in Hnew; congruence].
    destruct (recur_create_row t (recurrence t)
                (after_log (after_mark w task_id t) task_id mins))
      as [Heq|(created & due & Heq)]; rewrite Heq in Hnew; [congruence|].
    apply lookup_insert_Some in Hnew as [[_ <-]|[_ Hold]]; [|congruence].
    right. by exists task_id, t, created, due.
  - cbn in Hnew. congruence.
  - rewrite pom_stop_tasks in Hnew. congruence.
Qed.

(** Every row after a call is an old row, the completed form of an old
    row, a row of the form or the successor of an old row. *)
Lemma step_rows (w w' : World) (id : Z) (t' : task) :
  step w w' → tasks w' !! id = Some t' →
  (∃ t, tasks w !! id = Some t ∧ (t' = t ∨ ∃ at_, t' = completed_row at_ t))
  ∨ (∃ f, t' = form_row f w)
  ∨ (∃ id0 t0 created due,
       tasks w !! id0 = Some t0
       ∧ t' = successor_row t0 (recurrence t0) created due).
Proof.
  intros Hstep Hnew. destruct (tasks w !! id) as [t|] eqn:Hold.
  - left. exists t. split; [done|].
    pose proof (step_tasks_evolve _ _ Hstep id) as Hev. by rewrite Hold, Hnew in Hev.
  - right. by apply (step_new_row w w' id).
Qed.

(* =================================================================== *)
(** ** Estimates are never negative *)
(* =================================================================== *)







(* =================================================================== *)
(** ** Categories are stored stripped, estimates are asked unstripped *)
(* =================================================================== *)

Lemma reachable_categories_stripped (w : World) :
  reachable w → ∀ id t, tasks w !! id = Some t → Text.strip (category t) = category t.
Proof.
  unfold reachable. revert w.
  apply (rtc_ind_r (λ w, ∀ id t, tasks w !! id = Some t →
                         Text.strip (category t) = category t)).
  { intros id t. cbn. by rewrite lookup_empty. }
  intros w1 w2 Hrun Hstep IH id t' Ht'.
  destruct (step_rows w1 w2 id t' Hstep Ht')
    as [(t & Ht & [->|[at_ ->]])|[[f ->]|(id0 & t0 & created & due & Ht0 & ->)]];
    cbn; eauto using strip_idem.
Qed.

(** The fallback does not depend on the category asked for. *)
Lemma predict_time_without_history (w : World) (c c' : string) :
  durations_of w c = [] → durations_of w c' = [] →
  predict_time w c = predict_time w c'.
Proof.
  intros Hc Hc'. unfold predict_time.
  rewrite avg_time_category_eq, !dict_get_fmap.
  rewrite !decide_False; [done|..];
    rewrite elem_of_group_keys, get_sessions_categories; by intros H.
Qed.

(** X10.  Every stored category is stripped of outer white space, but the
    form asks the estimator with the text as typed.  So for a category
    typed with leading or trailing white space (and not blank), no history
    is ever found: the estimate stored is the fallback, the one any
    category without history gets, whatever history the stripped category
    has. *)
Theorem unstripped_category_gets_fallback (w : World) (cat c' : string) :
  reachable w →
  Text.strip cat ≠ cat →
  Text.blank cat = false →
  durations_of w c' = [] →
  (∀ id t, tasks w !! id = Some t → Text.strip (category t) = category t)
  ∧ durations_of w cat = []
  ∧ form_pred w cat = predict_time w c'.
Proof.
  intros Hreach Hraw Hblank Hc'.
  pose proof (reachable_categories_stripped w Hreach) as Hstripped.
  assert (durations_of w cat = []) as Hcat.
  { unfold durations_of.
    destruct (filter _ (work_sessions w)) as [|s l] eqn:E; [done|]. exfalso.
    assert (s ∈ filter (λ s, owner_category w s = Some cat) (work_sessions w)) as Hs
      by (rewrite E; left).
    apply list_elem_of_filter in Hs as [Hown _]. unfold owner_category in Hown.
    destruct (tasks w !! task_id s) as [t|] eqn:Ht; [|done].
    injection Hown as <-. by apply Hraw, (Hstripped (task_id s)). }
  split; [done|]. split; [done|].
  rewrite form_pred_blank, Hblank. by apply predict_time_without_history.
Qed.

(* =================================================================== *)
(** ** Runs driven by the pages *)
(* =================================================================== *)

Lemma ui_step_step (w w' : World) : ui_step w w' → step w w'.
Proof. destruct 1; constructor. Qed.

Lemma ui_run_run (w w' : World) : rtc ui_step w w' → rtc step w w'.
Proof.
  induction 1 as [|w w1 w2 Hstep _ IH]; [done|].
  eapply rtc_l; [by apply ui_step_step|done].
Qed.

Lemma get_pending_row (w : World) (id : Z) (t : task) :
  (id, t) ∈ get_pending w ↔ tasks w !! id = Some t ∧ status t = "Pending".
Proof.
  unfold get_pending. rewrite list_elem_of_filter, elem_of_map_to_list. cbn. tauto.
Qed.

(** [complete] leaves every row but its own as it is. *)
Lemma complete_other_rows (task_id : Z) (mins : option Q) (w : World) (j : Z) (t : task) :
  j ≠ task_id → tasks w !! j = Some t →
  tasks (world_after (complete task_id mins w)) !! j = Some t.
Proof.
  intros Hne Hj. destruct (tasks w !! task_id) as [row|] eqn:Hrow.
  2:{ by rewrite complete_missing_row. }
  rewrite (complete_unfold _ _ _ _ Hrow).
  assert (tasks (after_log (after_mark w task_id row) task_id mins) !! j = Some t) as H1.
  { rewrite (proj1 (after_log_tasks _ _ _)). cbn. by rewrite lookup_insert_ne. }
  destruct (decide _); [|done].
  destruct (recur_create_tasks row (recurrence row)
              (after_log (after_mark w task_id row) task_id mins))
    as [->|(id' & succ & Hfresh & _ & _ & ->)]; [done|].
  rewrite lookup_insert_ne; [done|]. intros ->. congruence.
Qed.

Lemma add_task_old_rows (f : new_task_form) (w : World) (j : Z) (t : task) :
  tasks w !! j = Some t → tasks (world_after (add_task f w)) !! j = Some t.
Proof.
  intros Hj. destruct (Text.truthy (Text.strip (f_title f))) eqn:Htitle.
  - destruct (add_task_inserts f w Htitle) as [Hfresh ->]. cbv zeta in Hfresh. cbn.
    rewrite lookup_insert_ne; [done|]. intros Heq. rewrite Heq in Hfresh. congruence.
  - by rewrite add_task_refuses.
Qed.

Lemma ui_step_completed_frozen (w w' : World) (id : Z) (t : task) :
  ui_step w w' → tasks w !! id = Some t → status t = "Completed" →
  tasks w' !! id = Some t.
Proof.
  intros Hstep Ht Hst.
  assert (∀ id' t', (id', t') ∈ get_pending w → id ≠ id') as Hother.
  { intros id' t' [Ht' Hst']%get_pending_row ->. congruence. }
  destruct Hstep as [f w|id' t' w Hp|id' t' m w Hp _|id' t' w Hp|save w _].
  - by apply add_task_old_rows.
  - apply complete_other_rows; eauto.
  - apply complete_other_rows; eauto.
  - done.
  - by rewrite pom_stop_tasks.
Qed.

(** X11.  Driven by the pages, a completed task is never written again:
    "Mark Completed" and "Save Time" exist only for pending rows, so once a
    row is Completed the whole row, its completion time included, stays as
    it is in every later world. *)
Theorem ui_completed_rows_frozen (w w' : World) (id : Z) (t : task) :
  rtc ui_step w w' → tasks w !! id = Some t → status t = "Completed" →
  tasks w' !! id = Some t.
Proof.
  induction 1 as [|w w1 w2 Hstep _ IH]; [done|]. intros Ht Hst.
  apply IH; [|done]. by apply (ui_step_completed_frozen w).
Qed.

Lemma foldr_max_le (l : list Z) (n : Z) :
  0 ≤ n → Forall (λ k, k ≤ n) l → foldr Z.max 0 l ≤ n.
Proof. intros Hn. induction 1 as [|k l Hk _ IH]; simpl; lia. Qed.

Lemma max_rowid_le {V} (t : gmap Z V) (n : Z) :
  0 ≤ n → (∀ k, is_Some (t !! k) → k ≤ n) → max_rowid t ≤ n.
Proof.
  intros Hn Hk. apply foldr_max_le; [done|]. apply Forall_forall.
  intros k Hin%elem_of_elements%elem_of_dom. auto.
Qed.

Lemma max_rowid_nonneg {V} (t : gmap Z V) : 0 ≤ max_rowid t.
Proof. unfold max_rowid. induction (elements (dom t)); simpl; lia. Qed.

(** Task ids are at least 1 in every reachable world: AUTOINCREMENT
    starts above the empty table. *)
Lemma reachable_ids_pos (w : World) :
  reachable w → ∀ id, is_Some (tasks w !! id) → 1 ≤ id.
Proof.
  unfold reachable. revert w.
  apply (rtc_ind_r (λ w, ∀ id, is_Some (tasks w !! id) → 1 ≤ id)).
  { intros id [t Ht]. cbn in Ht. by rewrite lookup_empty in Ht. }
  intros w1 w2 _ Hstep IH id [t' Ht'].
  destruct (tasks w1 !! id) as [t|] eqn:Hold; [by apply IH|].
  assert (id = Z.max (tasks_seq w1) (max_rowid (tasks w1)) + 1
          ∨ ∃ w0, id = Z.max (tasks_seq w0) (max_rowid (tasks w0)) + 1) as Hid.
  { destruct Hstep as [f w|task_id mins w|id1 w|save w].
    - destruct (Text.truthy (Text.strip (f_title f))) eqn:Htitle.
      + destruct (add_task_inserts f w Htitle) as [_ Hrun]. rewrite Hrun in Ht'.
        cbn in Ht'. apply lookup_insert_Some in Ht' as [[<- _]|[_ ?]]; [by left|congruence].
      + rewrite add_task_refuses in Ht' by done. cbn in Ht'. congruence.
    - destruct (tasks w !! task_id) as [row|] eqn:Hrow.
      2:{ rewrite complete_missing_row in Ht' by done. congruence. }
      rewrite (complete_unfold _ _ _ _ Hrow) in Ht'.
      assert (tasks (after_log (after_mark w task_id row) task_id mins) !! id = None) as H1.
      { rewrite (proj1 (after_log_tasks _ _ _)). cbn.
        rewrite lookup_insert_ne; [done|]. intros ->. congruence. }
      destruct (decide _); [|cbn in Ht'; congruence].
      destruct (recur_create_row row (recurrence row)
                  (after_log (after_mark w task_id row) task_id mins))
        as [Heq|(created & due & Heq)]; rewrite Heq in Ht'; [congruence|].
      apply lookup_insert_Some in Ht' as [[<- _]|[_ ?]]; [|congruence].
      right. by eexists.
    - cbn in Ht'. congruence.
    - rewrite pom_stop_tasks in Ht'. congruence. }
  destruct Hid as [->|[w0 ->]].
  - pose proof (max_rowid_nonneg (tasks w1)). lia.
  - pose proof (max_rowid_nonneg (tasks w0)). lia.
Qed.

(** The two timer fields are set together and cleared together, and a
    recorded start is never the empty text. *)
Lemma reachable_timer_paired (w : World) :
  reachable w →
  (is_Some (pom_task w) ↔ is_Some (pom_start_at w))
  ∧ (∀ s, pom_start_at w = Some s → Text.truthy s = true).
Proof.
  unfold reachable. revert w.
  apply (rtc_ind_r (λ w, (is_Some (pom_task w) ↔ is_Some (pom_start_at w))
                         ∧ (∀ s, pom_start_at w = Some s → Text.truthy s = true))).
  { cbn. split; [|done]. split; by intros [? ?]. }
  intros w1 w2 _ Hstep IH. destruct Hstep as [f w|id mins w|id w|save w].
  - by destruct (add_task_rest f w) as (_ & -> & ->).
  - by destruct (complete_sessions id mins w) as (-> & -> & _).
  - cbn. split; [split; eauto|]. by intros s [= <-].
  - destruct (pom_stop_clears save w) as [-> ->]. split; [|done].
    split; by intros [? ?].
Qed.

Lemma step_keeps_rows (w w' : World) (j : Z) :
  step w w' → is_Some (tasks w !! j) → is_Some (tasks w' !! j).
Proof.
  intros Hstep [t Ht]. pose proof (step_tasks_evolve _ _ Hstep j) as Hev.
  rewrite Ht in Hev. destruct (tasks w' !! j); [by eexists|done].
Qed.

Lemma id_truthy_Some (o : option Z) (id : Z) : id_truthy o = Some id → o = Some id.
Proof.
  unfold id_truthy. destruct o as [i|]; [|done]. destruct (i =? 0); congruence.
Qed.

(** The session [pom_stop] saves is for the task the timer ran on. *)
Lemma pom_stop_sessions_task (save : bool) (w : World) :
  let w' := world_after (pom_stop save w) in
  work_sessions w' = work_sessions w
  ∨ ∃ sid id start stop m,
      pom_task w = Some id
      ∧ work_sessions w' = (work_sessions w ++ [mkSession sid id start stop m])%list.
Proof.
  destruct save; [|by left].
  destruct (id_truthy (pom_task w)) as [id|] eqn:Hid;
    [|left; rewrite pom_stop_inactive; [done|]; unfold timer_active; by rewrite Hid].
  destruct (start_truthy (pom_start_at w)) as [start|] eqn:Hstart;
    [|left; rewrite pom_stop_inactive; [done|]; unfold timer_active;
      by rewrite Hid, Hstart].
  destruct (fromisoformat start) as [s|] eqn:Hparse.
  - right. rewrite (pom_stop_saves w id start s) by done. cbn.
    eexists _, _, _, _, _. split; [by apply id_truthy_Some|done].
  - left. unfold pom_stop, bind, gets, modify. cbn.
    by rewrite Hid, Hstart, Hparse.
Qed.

Lemma ui_reachable_refs (w : World) :
  ui_reachable w →
  (∀ s, s ∈ work_sessions w → is_Some (tasks w !! task_id s))
  ∧ (∀ id, pom_task w = Some id → is_Some (tasks w !! id)).
Proof.
  unfold ui_reachable. revert w.
  apply (rtc_ind_r (λ w,
    (∀ s, s ∈ work_sessions w → is_Some (tasks w !! task_id s))
    ∧ (∀ id, pom_task w = Some id → is_Some (tasks w !! id)))).
  { cbn. split; [by intros s ?%not_elem_of_nil|done]. }
  intros w1 w2 _ Hstep [IHs IHt].
  pose proof (λ j, step_keeps_rows _ _ j (ui_step_step _ _ Hstep)) as Hkeep.
  destruct Hstep as [f w|id t w Hp|id t m w Hp _|id t w Hp|save w _].
  - destruct (add_task_rest f w) as (-> & -> & _). split; eauto.
  - destruct (complete_sessions id None w)
      as (-> & _ & [->|(sid & k & stop & m & [=] & _)]). split; eauto.
  - destruct (complete_sessions id (Some m) w)
      as (-> & _ & [->|(sid & k & stop & m' & _ & _ & Hrow & ->)]); [split; eauto|].
    split; [|eauto].
    intros s [?|Hs%list_elem_of_singleton]%elem_of_app; [eauto|subst s]. cbn. eauto.
  - split; [cbn in *; eauto|]. cbn. intros id' [= <-]. apply Hkeep.
    apply get_pending_row in Hp as [Ht _]. by eexists.
  - destruct (pom_stop_clears save w) as [-> _]. split; [|done].
    destruct (pom_stop_sessions_task save w)
      as [->|(sid & id & start & stop & m & Hid & ->)]; [eauto|].
    intros s [?|Hs%list_elem_of_singleton]%elem_of_app; [eauto|subst s]. cbn. eauto.
Qed.

(** X12.  Driven by the pages, the store keeps its references: every
    session belongs to a task that exists, so the LEFT JOIN of
    [get_sessions] never yields a NULL category; the timer, when set, runs
    on a task that exists; its two fields are set together; and the test
    [tid and start] holds exactly when a timer is recorded, since task ids
    start at 1. *)
Theorem ui_references_hold (w : World) :
  ui_reachable w →
  (∀ s, s ∈ work_sessions w → is_Some (tasks w !! task_id s))
  ∧ (∀ r, r ∈ get_sessions w → is_Some (sr_category r))
  ∧ (∀ id, pom_task w = Some id → is_Some (tasks w !! id))
  ∧ (is_Some (pom_task w) ↔ is_Some (pom_start_at w))
  ∧ (timer_active w = true ↔ is_Some (pom_task w)).
Proof.
  intros Hui. destruct (ui_reachable_refs w Hui) as [Hs Ht].
  assert (reachable w) as Hreach by by apply ui_run_run.
  destruct (reachable_timer_paired w Hreach) as [Hpair Htruthy].
  split; [done|]. split.
  { unfold get_sessions. intros r (s & -> & Hin)%list_elem_of_fmap.
    destruct (Hs s Hin) as [t ->]. by eexists. }
  split; [done|]. split; [done|].
  unfold timer_active. split.
  - destruct (id_truthy (pom_task w)) as [id|] eqn:Hid; [|done].
    apply id_truthy_Some in Hid. rewrite Hid. by eexists.
  - intros [id Hid]. destruct (proj1 Hpair (mk_is_Some _ _ Hid)) as [s Hstart].
    pose proof (reachable_ids_pos w Hreach id (Ht id Hid)).
    rewrite Hid, Hstart. cbn. rewrite (Htruthy s Hstart).
    destruct (id =? 0) eqn:E; [|done]. apply Z.eqb_eq in E. lia.
Qed.

(* =================================================================== *)
(** ** Grouping loses no minute *)
(* =================================================================== *)





(* =================================================================== *)
(** ** Dates in order *)
(* =================================================================== *)











(* =================================================================== *)
(** ** The weekly score *)
(* =================================================================== *)











(* =================================================================== *)
(** ** The best hours *)
(* =================================================================== *)





(* =================================================================== *)
(** ** The dashboard *)
(* =================================================================== *)



(* =================================================================== *)
(** ** The Pomodoro tab *)
(* =================================================================== *)

(** [int] of a whole number. *)
Lemma int_of_inject (z : Z) : int_of (inject_Z z) = z.
Proof. unfold int_of. destruct (Qle_bool 0 _); [apply Qfloor_Z|apply Qceiling_Z]. Qed.

Lemma int_of_nonneg (x : Q) : (0 <= x)%Q → int_of x = Qfloor x.
Proof. intros Hx%Qle_bool_iff. unfold int_of. by rewrite Hx. Qed.

Lemma floor_unique (x : Q) (z : Z) :
  (inject_Z z <= x)%Q → (x < inject_Z (z + 1))%Q → Qfloor x = z.
Proof.
  intros Hle Hlt. pose proof (Qfloor_le x) as H1. pose proof (Qlt_floor x) as H2.
  assert (z < Qfloor x + 1) as Ha.
  { rewrite Zlt_Qlt. by eapply Qle_lt_trans. }
  assert (Qfloor x < z + 1) as Hb.
  { rewrite Zlt_Qlt. by eapply Qle_lt_trans. }
  lia.
Qed.

(** Minutes and seconds of a time of at most 25 minutes. *)
Lemma countdown_parts (x : Q) :
  (0 <= x)%Q → (x <= 1500)%Q →
  0 ≤ int_of (floordiv x 60) ≤ 25
  ∧ 0 ≤ int_of (pymod x 60) < 60
  ∧ 60 * int_of (floordiv x 60) + int_of (pymod x 60) = Qfloor x.
Proof.
  intros H0 H1. unfold pymod, floordiv. rewrite int_of_inject.
  set (m := Qfloor (x / 60)).
  pose proof (Qfloor_le (x / 60)) as Hm1. pose proof (Qlt_floor (x / 60)) as Hm2.
  fold m in Hm1, Hm2. rewrite inject_Z_plus in Hm2.
  unfold Qdiv in Hm1, Hm2. change (/ 60)%Q with (1 # 60)%Q in Hm1, Hm2.
  change (inject_Z 1) with 1%Q in Hm2.
  pose proof (Qfloor_le x) as Hf1. pose proof (Qlt_floor x) as Hf2.
  rewrite inject_Z_plus in Hf2. change (inject_Z 1) with 1%Q in Hf2.
  assert (0 <= x - 60 * inject_Z m)%Q as Hs0 by lra.
  rewrite (int_of_nonneg _ Hs0).
  assert (Qfloor (x - 60 * inject_Z m) = Qfloor x - 60 * m) as ->.
  { apply floor_unique.
    - unfold Z.sub. rewrite inject_Z_plus, inject_Z_opp, inject_Z_mult.
      change (inject_Z 60) with 60%Q. lra.
    - unfold Z.sub. rewrite !inject_Z_plus, inject_Z_opp, inject_Z_mult.
      change (inject_Z 60) with 60%Q. change (inject_Z 1) with 1%Q. lra. }
  assert (0 ≤ m) as Hm0.
  { rewrite <- (Qfloor_Z 0). unfold m. apply Qfloor_resp_le. unfold Qdiv.
    change (/ 60)%Q with (1 # 60)%Q. change (inject_Z 0) with 0%Q. lra. }
  assert (m ≤ 25) as Hm25.
  { rewrite <- (Qfloor_Z 25). unfold m. apply Qfloor_resp_le. unfold Qdiv.
    change (/ 60)%Q with (1 # 60)%Q. change (inject_Z 25) with 25%Q. lra. }
  assert (60 * m ≤ Qfloor x) as Hlow.
  { rewrite <- (Qfloor_Z (60 * m)). apply Qfloor_resp_le. rewrite inject_Z_mult.
    change (inject_Z 60) with 60%Q. lra. }
  assert (Qfloor x < 60 * (m + 1)) as Hhigh.
  { rewrite Zlt_Qlt. rewrite inject_Z_mult, inject_Z_plus.
    change (inject_Z 60) with 60%Q. change (inject_Z 1) with 1%Q. lra. }
  lia.
Qed.

(** [max(0, y)] *)
Lemma py_max_0 (y : Q) :
  (y <= 0 ∧ Num.py_max 0 y = 0)%Q ∨ (0 < y ∧ Num.py_max 0 y = y)%Q.
Proof.
  unfold Num.py_max. destruct (Qle_bool y 0) eqn:E.
  - left. by apply Qle_bool_iff in E.
  - right. split; [|done]. apply Qnot_le_lt. intros H%Qle_bool_iff. congruence.
Qed.

(** The time left on a timer. *)
Lemma remaining_cases (elapsed : Q) :
  let rem := Num.py_max 0 (1500 - elapsed) in
  (0 <= rem)%Q
  ∧ (0 <= elapsed → rem <= 1500)%Q
  ∧ (elapsed <= 1500 → rem == 1500 - elapsed)%Q
  ∧ (1500 <= elapsed → rem = 0)%Q.
Proof.
  cbv zeta. destruct (py_max_0 (1500 - elapsed)) as [[Hy ->]|[Hy ->]].
  - repeat split; intros; lra.
  - repeat split; intros; lra.
Qed.

Lemma total_seconds_nonneg (e s : Cal.datetime) :
  Cal.to_micro s ≤ Cal.to_micro e → (0 <= Cal.total_seconds e s)%Q.
Proof. intros Hle. unfold Cal.total_seconds, Qle. simpl. lia. Qed.

Lemma total_seconds_neg (e s : Cal.datetime) :
  Cal.to_micro e < Cal.to_micro s → (Cal.total_seconds e s < 0)%Q.
Proof. intros Hlt. unfold Cal.total_seconds, Qlt. simpl. lia. Qed.

(** Dropping the microseconds never moves a reading forward. *)
Lemma trunc_seconds_le (d : Cal.datetime) :
  Cal.datetime_ok d = true → Cal.to_micro (Cal.trunc_seconds d) ≤ Cal.to_micro d.
Proof.
  unfold Cal.datetime_ok, Cal.time_ok. rewrite !andb_true_iff.
  intros (_ & (((((((_ & _) & _) & _) & _) & _) & Hm) & _)).
  apply Z.leb_le in Hm. unfold Cal.to_micro, Cal.trunc_seconds. cbn. lia.
Qed.

Lemma spawn_ticks (t : task) (w : World) :
  (ticks w ≤ ticks (world_after
                      ((if decide (recurrence t ≠ "None")
                        then recur_create t (recurrence t) else ret tt) w)))%nat.
Proof.
  destruct (decide _); [|done].
  unfold recur_create. destruct (due_at t) as [due|]; [|done].
  destruct (Text.truthy due); simpl; [|done].
  destruct (fromisoformat due) as [d|]; [|done].
  destruct (Cal.add_days d (recur_delta (recurrence t))); [|done].
  cbn. lia.
Qed.

(** A call never takes a reading back, and a start it records is the
    reading it took. *)
Lemma step_timer_stamp (w w' : World) :
  step w w' →
  (ticks w ≤ ticks w')%nat
  ∧ ∀ s, pom_start_at w' = Some s →
      pom_start_at w = Some s
      ∨ (s = Iso.isoformat_seconds (clock (ticks w)) ∧ (ticks w < ticks w')%nat).
Proof.
  intros Hstep. destruct Hstep as [f w|id mins w|id w|save w].
  - unfold add_task, bind, gets, now_iso, now, ret, insert_task, modify.
    destruct (negb _); cbn; split; auto; lia.
  - destruct (tasks w !! id) as [t|] eqn:Hrow.
    + rewrite (complete_unfold id mins w t Hrow).
      set (w1 := after_log (after_mark w id t) id mins).
      destruct (spawn_rest t w1) as (_ & _ & _ & ->).
      pose proof (spawn_ticks t w1) as Hticks.
      assert ((ticks w ≤ ticks w1)%nat ∧ pom_start_at w1 = pom_start_at w) as [Hle ->].
      { unfold w1, after_log, after_mark.
        destruct mins as [m|]; [destruct (Qlt_le_dec 0 m)|]; cbn; split; done || lia. }
      split; [lia|auto].
    + rewrite (complete_missing_row id mins w Hrow). auto.
  - cbn. split; [lia|]. intros s [= <-]. right. split; [done|lia].
  - destruct (pom_stop_clears save w) as [_ ->]. split; [|done].
    unfold pom_stop, bind, gets, modify, now, ret, insert_session. cbn.
    destruct save, (id_truthy (pom_task w)), (start_truthy (pom_start_at w));
      cbn; try lia.
    destruct (fromisoformat s); cbn; lia.
Qed.

(** The start of a timer is an earlier reading of the clock. *)
Lemma reachable_timer_stamp (w : World) :
  reachable w →
  ∀ s, pom_start_at w = Some s →
    ∃ k, (k < ticks w)%nat ∧ s = Iso.isoformat_seconds (clock k).
Proof.
  unfold reachable. revert w.
  apply (rtc_ind_r (λ w, ∀ s, pom_start_at w = Some s →
                      ∃ k, (k < ticks w)%nat ∧ s = Iso.isoformat_seconds (clock k))).
  { done. }
  intros w1 w2 _ Hstep IH s Hs.
  destruct (step_timer_stamp w1 w2 Hstep) as [Hle Hnew].
  destruct (Hnew s Hs) as [Hold|[-> Hlt]].
  - destruct (IH s Hold) as (k & Hk & ->). exists k. split; [lia|done].
  - eauto.
Qed.

Lemma pomodoro_view_running (w : World) (id : Z) (start : string) (s : Cal.datetime) :
  id_truthy (pom_task w) = Some id →
  start_truthy (pom_start_at w) = Some start →
  fromisoformat start = Some s →
  pomodoro_view w =
    let rem := Num.py_max 0 (1500 - Cal.total_seconds (clock (ticks w)) s) in
    Returned (Some (fmt_02d (int_of (floordiv rem 60))
                      (":" ++ fmt_02d (int_of (pymod rem 60)) " remaining"),
                    (1 - rem / 1500)%Q))
             (ticked w).
Proof.
  intros Hid Hstart Hparse. unfold pomodoro_view, bind, gets. cbv beta iota.
  rewrite Hid, Hstart, Hparse. reflexivity.
Qed.

(** X17.  The countdown of the Pomodoro tab in a reachable world, by a
    clock that never runs back.  With no timer active nothing is shown and
    the clock is not read.  With a timer active the recorded start is an
    earlier reading of the clock, it is read back, and the clock is read
    once: the text is [mm:ss remaining] with at most 25 minutes and less
    than 60 seconds, which together are the whole seconds left of the 25
    minutes; the progress value is the elapsed fraction of the 25 minutes
    and lies between 0 and 1; from 25 minutes on the text is
    [00:00 remaining] and the progress is 1. *)
Theorem pomodoro_view_spec (w : World) :
  clock_ok → clock_monotone → reads_timestamps fromisoformat → reachable w →
  (timer_active w = false → pomodoro_view w = Returned None w)
  ∧ (timer_active w = true →
     ∃ k mm ss p,
       (k < ticks w)%nat
       ∧ pom_start_at w = Some (Iso.isoformat_seconds (clock k))
       ∧ pomodoro_view w
         = Returned (Some (fmt_02d mm (":" ++ fmt_02d ss " remaining"), p)) (ticked w)
       ∧ let elapsed :=
           Cal.total_seconds (clock (ticks w)) (Cal.trunc_seconds (clock k)) in
         (0 <= elapsed)%Q
         ∧ 0 ≤ mm ≤ 25 ∧ 0 ≤ ss < 60
         ∧ (0 <= p)%Q ∧ (p <= 1)%Q
         ∧ ((elapsed <= 1500)%Q →
            60 * mm + ss = Qfloor (1500 - elapsed) ∧ (p == elapsed / 1500)%Q)
         ∧ ((1500 <= elapsed)%Q → mm = 0 ∧ ss = 0 ∧ (p == 1)%Q)).
Proof.
  intros Hclock Hmono Hparser Hreach. split.
  { unfold timer_active, pomodoro_view, bind, gets. cbv beta iota.
    destruct (id_truthy (pom_task w)), (start_truthy (pom_start_at w)); done. }
  unfold timer_active.
  destruct (id_truthy (pom_task w)) as [id|] eqn:Hid; [|done].
  destruct (start_truthy (pom_start_at w)) as [start|] eqn:Hstart; [|done].
  intros _. pose proof (start_truthy_Some _ _ Hstart) as Hat.
  destruct (reachable_timer_stamp w Hreach start Hat) as (k & Hk & ->).
  pose proof (Hparser (clock k) (Hclock k)) as Hparse.
  rewrite (pomodoro_view_running w id _ _ Hid Hstart Hparse). cbv zeta.
  set (elapsed := Cal.total_seconds (clock (ticks w)) (Cal.trunc_seconds (clock k))).
  assert (0 <= elapsed)%Q as He.
  { apply total_seconds_nonneg. pose proof (trunc_seconds_le (clock k) (Hclock k)).
    pose proof (Hmono k (ticks w)). lia. }
  destruct (remaining_cases elapsed) as (Hr0 & Hr1 & Hr2 & Hr3). cbv zeta in *.
  specialize (Hr1 He).
  set (rem := Num.py_max 0 (1500 - elapsed)) in *.
  destruct (countdown_parts rem Hr0 Hr1) as (Hmm & Hss & Hsum).
  exists k, (int_of (floordiv rem 60)), (int_of (pymod rem 60)), (1 - rem / 1500)%Q.
  split; [done|]. split; [done|]. split; [done|]. split; [done|].
  split; [done|]. split; [done|].
  unfold Qdiv. change (/ 1500)%Q with (1 # 1500)%Q.
  split; [lra|]. split; [lra|]. split.
  - intros Hle. specialize (Hr2 Hle). split; [|fold elapsed; lra].
    rewrite Hsum. by apply Qfloor_comp.
  - intros Hge. rewrite (Hr3 Hge). split; [reflexivity|]. split; [reflexivity|]. lra.
Qed.

(** X18.  The countdown when the clock has been set back behind the
    recorded start: the tab still answers, showing 25 minutes or more as
    remaining and computing a progress value below 0, outside the range of
    a progress bar. *)
Theorem pomodoro_view_clock_set_back (w : World) (id : Z) (start : string)
    (s : Cal.datetime) :
  id_truthy (pom_task w) = Some id →
  start_truthy (pom_start_at w) = Some start →
  fromisoformat start = Some s →
  Cal.to_micro (clock (ticks w)) < Cal.to_micro s →
  ∃ mm ss p,
    pomodoro_view w
    = Returned (Some (fmt_02d mm (":" ++ fmt_02d ss " remaining"), p)) (ticked w)
    ∧ 25 ≤ mm ∧ (p < 0)%Q.
Proof.
  intros Hid Hstart Hparse Hback.
  rewrite (pomodoro_view_running w id _ _ Hid Hstart Hparse). cbv zeta.
  pose proof (total_seconds_neg _ _ Hback) as He.
  set (elapsed := Cal.total_seconds (clock (ticks w)) s) in *.
  destruct (py_max_0 (1500 - elapsed)) as [[Hy _]|[Hy ->]]; [lra|].
  eexists _, _, _. split; [reflexivity|]. split.
  - unfold floordiv. rewrite int_of_inject. rewrite <- (Qfloor_Z 25).
    apply Qfloor_resp_le. unfold Qdiv. change (/ 60)%Q with (1 # 60)%Q.
    change (inject_Z 25) with 25%Q. lra.
  - unfold Qdiv. change (/ 1500)%Q with (1 # 1500)%Q. lra.
Qed.
End Engine.

(* ===================================================================== *)
(** ** The model at work *)
(* ===================================================================== *)



(** The run behind [Sample.w_week]. *)
Lemma diary_run_reachable : reachable Sample.diary Iso.parse Sample.w_week.
Proof.
  pose (c := Sample.diary). pose (p := Iso.parse).
  pose (w1 := world_after (add_task c Sample.writing_form initial_world)).
  pose (w2 := world_after (add_task c Sample.reading_form w1)).
  pose (w3 := world_after (complete c p 2 (Some 45%Q) w2)).
  pose (w4 := world_after (complete c p 1 (Some 69%Q) w3)).
  pose (w5 := world_after (complete c p 1 (Some (1 # 5)%Q) w4)).
  pose (w6 := world_after (complete c p 1 (Some (2 # 5)%Q) w5)).
  pose (w7 := world_after (pom_start c 1 w6)).
  assert (Sample.w_week = world_after (pom_stop c p true w7)) as ->
    by (vm_compute; reflexivity).
  unfold reachable.
  eapply rtc_l; [apply (step_add_task _ _ Sample.writing_form)|]. fold c w1.
  eapply rtc_l; [apply (step_add_task _ _ Sample.reading_form)|]. fold w2.
  eapply rtc_l; [apply (step_complete _ _ 2 (Some 45%Q))|]. fold p w3.
  eapply rtc_l; [apply (step_complete _ _ 1 (Some 69%Q))|]. fold w4.
  eapply rtc_l; [apply (step_complete _ _ 1 (Some (1 # 5)%Q))|]. fold w5.
  eapply rtc_l; [apply (step_complete _ _ 1 (Some (2 # 5)%Q))|]. fold w6.
  eapply rtc_l; [apply (step_pom_start _ _ 1)|]. fold w7.
  apply rtc_once, step_pom_stop.
Qed.

(** C1, counterexample.  A Pomodoro is running on task 1; starting one on
    task 2 does not fail: the call returns and the timer now belongs to
    task 2. *)
Lemma pom_start_conflict_counterexample :
  timer_active Sample.w_running = true
  ∧ pom_task Sample.w_running = Some 1
  ∧ (¬ ∃ e w', pom_start Sample.clock 2 Sample.w_running = Raised e w')
  ∧ pom_task (world_after (pom_start Sample.clock 2 Sample.w_running)) = Some 2.
Proof.
  split; [reflexivity|]. split; [reflexivity|]. split; [|reflexivity].
  intros (e & w' & H). discriminate H.
Qed.

(** C2, at a concrete input: task 7 does not exist. *)
Lemma complete_missing_task_witness :
  complete Sample.clock Iso.parse 7 (Some 25%Q) Sample.w_tasks
  = Raised IndexError Sample.w_tasks.
Proof.
  apply (complete_missing_task Sample.clock Iso.parse 7 (Some 25%Q) Sample.w_tasks).
  reflexivity.
Defined.

(** C4, counterexample.  The task "Backup" recurs daily and is due on
    9999-12-31, which parses; there is no next day, the addition overflows,
    and no successor is created. *)
Lemma recur_create_overflow_counterexample :
  due_at Sample.last_day = Some "9999-12-31T17:00:00"
  ∧ recurrence Sample.last_day = "Daily"
  ∧ Iso.parse "9999-12-31T17:00:00"
    = Some (Cal.combine (Cal.mkDate 9999 12 31) (Cal.mkTime 17 0 0 0))
  ∧ recur_create Sample.clock Iso.parse Sample.last_day "Daily" Sample.w_tasks
    = Raised OverflowError Sample.w_tasks
  ∧ ∃ w', complete Sample.clock Iso.parse 3 None Sample.w_tasks
          = Raised OverflowError w'
          ∧ dom (tasks w') = dom (tasks Sample.w_tasks).
Proof.
  split; [reflexivity|]. split; [reflexivity|]. split; [reflexivity|].
  split; [reflexivity|]. eexists. split; [reflexivity|]. by vm_compute.
Qed.

(** C4, at a concrete input: the essay due on 2024-01-01 at 17:00 recurs
    daily; its successor is due on 2024-01-02 at 17:00. *)
Lemma recur_create_spawns_successor_witness :
  recur_create Sample.clock Iso.parse Sample.essay "Daily" Sample.w_tasks
  = Returned tt
      (mkWorld
         (<[4 := mkTask "Essay" "" "Writing" "High" "Pending" "2024-03-04T09:00:05"
                   (Some "2024-01-02T17:00:00") None 30 "Daily"]>
            (tasks Sample.w_tasks))
         4 [] 0 None None 6).
Proof.
  exact (proj1 (proj2
    (recur_create_spawns_successor Sample.clock Iso.parse Sample.essay "Daily"
       "2024-01-01T17:00:00"
       (Cal.combine (Cal.mkDate 2024 1 1) (Cal.mkTime 17 0 0 0))
       (Cal.combine (Cal.mkDate 2024 1 2) (Cal.mkTime 17 0 0 0))
       Sample.w_tasks eq_refl ltac:(discriminate) eq_refl eq_refl eq_refl))).
Defined.

(** C5, at a concrete input: the review recurs weekly and is due "next
    friday", which does not parse. *)
Lemma complete_skips_bad_due_date_witness :
  ∃ w', complete Sample.clock Iso.parse 2 None Sample.w_tasks = Returned tt w'
        ∧ tasks w' =
            <[2 := completed_row "2024-03-04T09:00:05" Sample.review]>
              (tasks Sample.w_tasks)
        ∧ dom (tasks w') = dom (tasks Sample.w_tasks).
Proof.
  apply (complete_skips_bad_due_date Sample.clock Iso.parse 2 None Sample.w_tasks
           Sample.review).
  - reflexivity.
  - discriminate.
  - right. reflexivity.
Defined.




(** C7, at a concrete input: the timer was started at 09:00:05 and is
    stopped, with save, at 09:00:05; the session records one minute. *)
Lemma pom_stop_spec_witness :
  pom_stop Sample.frozen Iso.parse true Sample.w_running
  = Returned tt
      (mkWorld (tasks Sample.w_running) 3
         [mkSession 1 1 "2024-03-04T09:00:05" "2024-03-04T09:00:05" 1]
         1 None None 7).
Proof.
  destruct (pom_stop_spec Sample.frozen Iso.parse true Sample.w_running)
    as (_ & _ & _ & _ & Hsave & _).
  destruct (Hsave 1 "2024-03-04T09:00:05"
              (Cal.combine (Cal.mkDate 2024 3 4) (Cal.mkTime 9 0 5 0))
              eq_refl eq_refl eq_refl eq_refl) as [Hrun Hmins].
  cbv zeta in Hrun, Hmins. rewrite Hrun, Hmins; [reflexivity|].
  by vm_compute.
Defined.

(** C9, at a concrete input. *)
Lemma writing_round_trip_witness :
  ∃ id t,
    tasks Sample.w_tasks !! id = None
    ∧ tasks (world_after (add_task Sample.clock Sample.writing_form Sample.w_tasks))
      = <[id := t]> (tasks Sample.w_tasks)
    ∧ category t = "Writing"
    ∧ predicted_minutes t = 30%Q
    ∧ predict_time
        (world_after
           (complete Sample.clock Iso.parse id (Some 60%Q)
              (world_after (add_task Sample.clock Sample.writing_form Sample.w_tasks))))
        "Writing" = 60%Q.
Proof.
  apply (writing_round_trip Sample.clock Iso.parse Sample.writing_form Sample.w_tasks);
    reflexivity.
Defined.

(** C10, at a concrete input: the category is a space, a no-break space
    and a tab, in a store whose history would otherwise give 270.1. *)
Lemma blank_category_gets_30_witness :
  Text.strip (f_cat Sample.blank_form) = ""
  ∧ predict_time Sample.w_logged (f_cat Sample.blank_form) = (2701 # 10)%Q
  ∧ form_pred Sample.w_logged (f_cat Sample.blank_form) = 30%Q
  ∧ ∃ id t,
      tasks Sample.w_logged !! id = None
      ∧ tasks (world_after (add_task Sample.clock Sample.blank_form Sample.w_logged))
        = <[id := t]> (tasks Sample.w_logged)
      ∧ category t = ""
      ∧ predicted_minutes t = 30%Q.
Proof.
  split; [reflexivity|]. split; [reflexivity|].
  destruct (blank_category_gets_30 Sample.clock Sample.blank_form Sample.w_logged)
    as (Hpred & _ & Hrow); [reflexivity..|].
  split; [exact Hpred|exact Hrow].
Defined.

(** A run of the engine: a task is added through the form and then
    completed with 45 logged minutes. *)
Lemma sample_run_reachable : reachable Sample.clock Iso.parse Sample.w_done.
Proof.
  change Sample.w_done with
    (world_after
       (complete Sample.clock Iso.parse 1 (Some 45%Q)
          (world_after (add_task Sample.clock Sample.writing_form initial_world)))).
  eapply rtc_l; [apply (step_add_task _ _ Sample.writing_form)|].
  apply rtc_once, step_complete.
Qed.


(** C8, at a concrete input: in the world after the run above, task 1 is
    Completed with its completion time set, and it is still Completed after
    it is completed once more. *)
Lemma task_status_invariant_witness :
  (∀ id t, tasks Sample.w_done !! id = Some t →
     (status t = "Pending" ∨ status t = "Completed")
     ∧ ¬ (status t = "Pending" ∧ status t = "Completed")
     ∧ (is_Some (completed_at t) ↔ status t = "Completed"))
  ∧ (∀ w' id t, rtc (step Sample.clock Iso.parse) Sample.w_done w' →
       tasks Sample.w_done !! id = Some t → status t = "Completed" →
       ∃ t', tasks w' !! id = Some t' ∧ status t' = "Completed")
  ∧ (∀ w' id t', step Sample.clock Iso.parse Sample.w_done w' →
       tasks Sample.w_done !! id = None → tasks w' !! id = Some t' → status t' = "Pending").
Proof.
  exact (task_status_invariant Sample.clock Iso.parse Sample.w_done sample_run_reachable).
Defined.

(* ===================================================================== *)
(** ** Further properties at work *)
(* ===================================================================== *)


(** The sample run, click by click: the form, then "Save Time" with 45
    minutes on the pending task 1. *)
Lemma sample_run_ui : ui_reachable Sample.clock Iso.parse Sample.w_done.
Proof.
  change Sample.w_done with
    (world_after
       (complete Sample.clock Iso.parse 1 (Some 45%Q)
          (world_after (add_task Sample.clock Sample.writing_form initial_world)))).
  eapply rtc_l; [apply (ui_add_task _ _ Sample.writing_form)|].
  apply rtc_once.
  eapply (ui_save_time _ _ 1 _ 45%Q); [|done].
  apply get_pending_row. split; reflexivity.
Qed.

(** X1, at a concrete input: ten more minutes logged after the sample
    run. *)
Lemma sessions_append_only_witness :
  work_sessions Sample.w_done
    `prefix_of`
  work_sessions (world_after (complete Sample.clock Iso.parse 1 (Some 10%Q) Sample.w_done)).
Proof.
  apply (sessions_append_only Sample.clock Iso.parse).
  apply rtc_once, step_complete.
Defined.

(** X2, at a concrete input. *)
Lemma task_columns_immutable_witness :
  ∃ t', tasks (world_after (complete Sample.clock Iso.parse 1 (Some 10%Q) Sample.w_tasks))
          !! 1 = Some t'
        ∧ same_fixed_columns Sample.essay t'.
Proof.
  apply (task_columns_immutable Sample.clock Iso.parse Sample.w_tasks _ 1 Sample.essay).
  - apply rtc_once, step_complete.
  - reflexivity.
Defined.

(** X3, at a concrete input: 25 minutes on task 1. *)
Lemma complete_logs_iff_positive_witness :
  work_sessions (world_after (complete Sample.clock Iso.parse 1 (Some 25%Q) Sample.w_tasks))
  = [mkSession 1 1 "2024-03-04T09:00:06" "2024-03-04T09:00:07" 25].
Proof.
  destruct (complete_logs_iff_positive Sample.clock Iso.parse 1 (Some 25%Q)
              Sample.w_tasks Sample.essay eq_refl) as (_ & _ & Hlog & _).
  rewrite (Hlog 25%Q eq_refl); [reflexivity|done].
Defined.

(** X4, at a concrete input: the task due on 9999-12-31 is left Completed
    although the call raises. *)
Lemma complete_outcomes_witness :
  complete Sample.clock Iso.parse 3 None Sample.w_tasks
  = Raised OverflowError (after_mark Sample.clock Sample.w_tasks 3 Sample.last_day)
  ∧ tasks (world_after (complete Sample.clock Iso.parse 3 None Sample.w_tasks)) !! 3
    = Some (completed_row "2024-03-04T09:00:05" Sample.last_day).
Proof.
  split; [reflexivity|].
  exact (proj1 (complete_outcomes Sample.clock Iso.parse 3 None
                  Sample.w_tasks Sample.last_day eq_refl)).
Defined.

(** X5, at a concrete input: the daily essay, completed with 25 minutes. *)
Lemma complete_spawns_successor_witness :
  tasks (world_after (complete Sample.clock Iso.parse 1 (Some 25%Q) Sample.w_tasks)) !! 4
  = Some (mkTask "Essay" "" "Writing" "High" "Pending" "2024-03-04T09:00:08"
            (Some "2024-01-02T17:00:00") None 30 "Daily").
Proof.
  destruct (complete_spawns_successor Sample.clock Iso.parse 1 (Some 25%Q)
              Sample.w_tasks Sample.essay "2024-01-01T17:00:00"
              (Cal.combine (Cal.mkDate 2024 1 1) (Cal.mkTime 17 0 0 0))
              (Cal.combine (Cal.mkDate 2024 1 2) (Cal.mkTime 17 0 0 0))
              eq_refl ltac:(discriminate) eq_refl ltac:(discriminate) eq_refl eq_refl)
    as (_ & _ & Hrun).
  cbv zeta in Hrun. rewrite Hrun. reflexivity.
Defined.

(** X7, at a concrete input: started at 09:00:05.000250 and stopped one
    second later. *)
Lemma pomodoro_start_stop_witness :
  pom_stop Sample.clock Iso.parse true
    (world_after (pom_start Sample.clock 1 Sample.w_tasks))
  = Returned tt
      (mkWorld (tasks Sample.w_tasks) 3
         [mkSession 1 1 "2024-03-04T09:00:05" "2024-03-04T09:00:06" 1]
         1 None None 7).
Proof.
  destruct (pomodoro_start_stop Sample.clock Iso.parse 1 Sample.w_tasks
              ltac:(discriminate) eq_refl parse_isoformat_seconds) as [Hrun _].
  cbv zeta in Hrun. rewrite Hrun. reflexivity.
Defined.

(** X8, at a concrete input: the store of the sample run. *)
Lemma pending_completed_partition_witness :
  get_pending Sample.w_done = []
  ∧ (∀ id t, tasks Sample.w_done !! id = Some t →
       ((id, t) ∈ get_pending Sample.w_done ∧ ¬ ((id, t) ∈ get_completed Sample.w_done))
       ∨ (¬ ((id, t) ∈ get_pending Sample.w_done) ∧ (id, t) ∈ get_completed Sample.w_done))
  ∧ (∀ id t, (id, t) ∈ get_pending Sample.w_done ∨ (id, t) ∈ get_completed Sample.w_done →
       tasks Sample.w_done !! id = Some t).
Proof.
  split; [reflexivity|].
  exact (pending_completed_partition Sample.clock Iso.parse Sample.w_done
           sample_run_reachable).
Defined.


(** X10, at a concrete input: "Writing" typed with a no-break space after
    it is stored as "Writing", whose history gives 17.7, but is estimated
    like "Cooking", which has no history, at 31.3. *)
Lemma unstripped_category_gets_fallback_witness :
  Text.strip ("Writing" ++ Sample.nbsp) = "Writing"
  ∧ predict_time Sample.w_week "Writing" = (177 # 10)%Q
  ∧ form_pred Sample.w_week ("Writing" ++ Sample.nbsp) = (313 # 10)%Q
  ∧ (∀ id t, tasks Sample.w_week !! id = Some t → Text.strip (category t) = category t)
  ∧ durations_of Sample.w_week ("Writing" ++ Sample.nbsp) = []
  ∧ form_pred Sample.w_week ("Writing" ++ Sample.nbsp) = predict_time Sample.w_week "Cooking".
Proof.
  split; [reflexivity|]. split; [reflexivity|]. split; [reflexivity|].
  apply (unstripped_category_gets_fallback Sample.diary Iso.parse Sample.w_week
           ("Writing" ++ Sample.nbsp) "Cooking" diary_run_reachable).
  - discriminate.
  - reflexivity.
  - reflexivity.
Defined.

(** X11, at a concrete input: another task is added after the sample run. *)
Lemma ui_completed_rows_frozen_witness :
  tasks (world_after (add_task Sample.clock Sample.blank_form Sample.w_done)) !! 1
  = Some (mkTask "Draft chapter" "" "Writing" "Medium" "Completed"
            "2024-03-04T09:00:00" (Some "2024-03-08T17:00:00")
            (Some "2024-03-04T09:00:01") 30 "None").
Proof.
  apply (ui_completed_rows_frozen Sample.clock Iso.parse Sample.w_done).
  - apply rtc_once, ui_add_task.
  - reflexivity.
  - reflexivity.
Defined.

(** X12, at a concrete input: the store of the sample run. *)
Lemma ui_references_hold_witness :
  (∀ s, s ∈ work_sessions Sample.w_done → is_Some (tasks Sample.w_done !! task_id s))
  ∧ (∀ r, r ∈ get_sessions Sample.w_done → is_Some (sr_category r))
  ∧ (∀ id, pom_task Sample.w_done = Some id → is_Some (tasks Sample.w_done !! id))
  ∧ (is_Some (pom_task Sample.w_done) ↔ is_Some (pom_start_at Sample.w_done))
  ∧ (timer_active Sample.w_done = true ↔ is_Some (pom_task Sample.w_done)).
Proof.
  exact (ui_references_hold Sample.clock Iso.parse Sample.w_done sample_run_ui).
Defined.





Lemma steady_clock_ok : clock_ok Sample.steady.
Proof.
  intros k. unfold Sample.steady, Cal.datetime_ok, Cal.time_ok.
  cbn [Cal.dt_date Cal.dt_time Cal.hour Cal.minute Cal.second Cal.microsecond].
  rewrite !andb_true_iff, !Z.leb_le, !Z.ltb_lt. repeat split; try lia; done.
Qed.

Lemma steady_clock_monotone : clock_monotone Sample.steady.
Proof.
  intros i j Hij. unfold Sample.steady, Cal.to_micro.
  cbn [Cal.dt_date Cal.dt_time Cal.hour Cal.minute Cal.second Cal.microsecond].
  lia.
Qed.

(** The run behind [Sample.w_timing]: the form, then "Start Pomodoro". *)
Lemma sample_timing_reachable : reachable Sample.steady Iso.parse Sample.w_timing.
Proof.
  change Sample.w_timing with
    (world_after
       (pom_start Sample.steady 1
          (world_after (add_task Sample.steady Sample.writing_form initial_world)))).
  eapply rtc_l; [apply (step_add_task _ _ Sample.writing_form)|].
  apply rtc_once, step_pom_start.
Qed.

(** X17, at a concrete input: one minute after the start the tab shows
    24:00 and a progress of 1/25. *)
Lemma pomodoro_view_spec_witness :
  pomodoro_view Sample.steady Iso.parse Sample.w_timing
  = Returned (Some ("24:00 remaining", 60000000 # 1500000000)) (ticked Sample.w_timing)
  ∧ ∃ k mm ss p,
      (k < ticks Sample.w_timing)%nat
      ∧ pom_start_at Sample.w_timing = Some (Iso.isoformat_seconds (Sample.steady k))
      ∧ pomodoro_view Sample.steady Iso.parse Sample.w_timing
        = Returned (Some (fmt_02d mm (":" ++ fmt_02d ss " remaining"), p))
                   (ticked Sample.w_timing)
      ∧ (0 <= Cal.total_seconds (Sample.steady (ticks Sample.w_timing))
                (Cal.trunc_seconds (Sample.steady k)))%Q
      ∧ 0 ≤ mm ≤ 25 ∧ 0 ≤ ss < 60
      ∧ (0 <= p)%Q ∧ (p <= 1)%Q
      ∧ ((Cal.total_seconds (Sample.steady (ticks Sample.w_timing))
            (Cal.trunc_seconds (Sample.steady k)) <= 1500)%Q →
         60 * mm + ss
         = Qfloor (1500 - Cal.total_seconds (Sample.steady (ticks Sample.w_timing))
                            (Cal.trunc_seconds (Sample.steady k)))
         ∧ (p == Cal.total_seconds (Sample.steady (ticks Sample.w_timing))
                   (Cal.trunc_seconds (Sample.steady k)) / 1500)%Q)
      ∧ ((1500 <= Cal.total_seconds (Sample.steady (ticks Sample.w_timing))
                    (Cal.trunc_seconds (Sample.steady k)))%Q →
         mm = 0 ∧ ss = 0 ∧ (p == 1)%Q).
Proof.
  split; [reflexivity|].
  apply (pomodoro_view_spec Sample.steady Iso.parse Sample.w_timing
           steady_clock_ok steady_clock_monotone parse_isoformat_seconds
           sample_timing_reachable).
  reflexivity.
Defined.

(** X18, at a concrete input: the start reads 09:30:00 and the clock
    09:00:06. *)
Lemma pomodoro_view_clock_set_back_witness :
  pomodoro_view Sample.clock Iso.parse Sample.w_set_back
  = Returned (Some ("54:53 remaining", -1793999750 # 1500000000))
             (ticked Sample.w_set_back)
  ∧ ∃ mm ss p,
      pomodoro_view Sample.clock Iso.parse Sample.w_set_back
      = Returned (Some (fmt_02d mm (":" ++ fmt_02d ss " remaining"), p))
                 (ticked Sample.w_set_back)
      ∧ 25 ≤ mm ∧ (p < 0)%Q.
Proof.
  split; [reflexivity|].
  apply (pomodoro_view_clock_set_back Sample.clock Iso.parse Sample.w_set_back 1
           "2024-03-04T09:30:00"
           (Cal.combine (Cal.mkDate 2024 3 4) (Cal.mkTime 9 30 0 0))).
  - reflexivity.
  - reflexivity.
  - reflexivity.
  - reflexivity.
Defined.
